(** * pdcli: the PagerDuty command-line client and its auto-ack daemon

    A shallow embedding of [pdcli.py].  The program is a sequence of calls
    into the outside world (HTTP requests, the clocks, standard output, a
    helper process, [time.sleep]) glued by a little pure code over decoded
    JSON.  The embedding keeps that shape:

    - decoded JSON is the type [value], with the Python operations the
      program applies to it ([v[k]], [v.get(k, d)], [v[:n]], truth value);
    - every call into the outside world appends one [event] to a trace and
      takes its outcome from a [World], which may answer differently at
      every point of the run and may raise, [KeyboardInterrupt] included;
    - exceptions are explicit: a computation returns [exn + A];
    - [while True] runs for a given number of turns, after which the
      daemon is reported as still [Running].

    A float is the rational number it stands for: binary64 arithmetic is
    the exact operation followed by rounding to the nearest binary64
    value, ties to even ([binary64]); overflow does not arise, a
    difference of two datetimes being far below it.  A string is its
    UTF-8 encoding.  An interrupt arrives at a call into the outside
    world, not between two of them. *)

From Stdlib Require Import ZArith QArith Qround Qpower Lqa SpecFloat.
From Stdlib Require Import List String Ascii DecimalString Bool Lia.
Import ListNotations.

Local Open Scope string_scope.
Local Open Scope Z_scope.

(** ** Exceptions and results *)

(** [except Exception] catches every exception of class [Exception];
    [KeyboardInterrupt] is a [BaseException] and is caught by its own
    clause only. [Exception cls msg] carries the class name and [str(e)]. *)
Inductive exn : Type :=
| KeyboardInterrupt
| Exception (cls : string) (msg : string).

Definition result (A : Type) : Type := (exn + A)%type.

Definition ok {A : Type} (a : A) : result A := inr a.
Definition fail {A : Type} (e : exn) : result A := inl e.

Definition rbind {A B : Type} (r : result A) (f : A -> result B) : result B :=
  match r with
  | inl e => inl e
  | inr a => f a
  end.

Declare Scope result_scope.
Delimit Scope result_scope with res.
Notation "'let?' x ':=' r 'in' k" := (rbind r (fun x => k))
  (at level 10, x name, r at level 100, k at level 200) : result_scope.

(** ** Characters the program writes *)

Definition ESC : string := String "027"%char EmptyString.
Definition BEL : string := String "007"%char EmptyString.
Definition NL : string := String "010"%char EmptyString.
Definition DQUOTE : string := String "034"%char EmptyString.

(** ** Python values decoded from JSON

    JSON numbers are kept to the integers: the program reads no fractional
    field. A dict is the list of its items; lookup takes the first binding
    of a key. *)
#[warnings="-register-all"]
Inductive value : Type :=
| VNone
| VBool (b : bool)
| VInt (n : Z)
| VStr (s : string)
| VList (items : list value)
| VDict (items : list (string * value)).

Fixpoint lookup_item (key : string) (items : list (string * value)) : option value :=
  match items with
  | [] => None
  | (k, v) :: rest => if String.eqb k key then Some v else lookup_item key rest
  end.

Definition type_name (v : value) : string :=
  match v with
  | VNone => "NoneType"
  | VBool _ => "bool"
  | VInt _ => "int"
  | VStr _ => "str"
  | VList _ => "list"
  | VDict _ => "dict"
  end.

Definition KeyError {A : Type} (key : string) : result A :=
  fail (Exception "KeyError" ("'" ++ key ++ "'")).
Definition TypeError {A : Type} (msg : string) : result A :=
  fail (Exception "TypeError" msg).
Definition not_subscriptable {A : Type} (v : value) : result A :=
  TypeError ("'" ++ type_name v ++ "' object is not subscriptable").
Definition AttributeError {A : Type} (v : value) (attr : string) : result A :=
  fail (Exception "AttributeError"
          ("'" ++ type_name v ++ "' object has no attribute '" ++ attr ++ "'")).
Definition IndexError {A : Type} (kind : string) : result A :=
  fail (Exception "IndexError" (kind ++ " index out of range")).

(** [v[key]] with a string key. *)
Definition subscript (v : value) (key : string) : result value :=
  match v with
  | VDict items =>
      match lookup_item key items with
      | Some x => ok x
      | None => KeyError key
      end
  | VList _ => TypeError "list indices must be integers or slices, not str"
  | VStr _ => TypeError "string indices must be integers, not 'str'"
  | _ => not_subscriptable v
  end.

(** The bound method [v.get]: only a dict has one. *)
Definition get_method (v : value) : result (list (string * value)) :=
  match v with
  | VDict items => ok items
  | _ => AttributeError v "get"
  end.

Definition lookup_default (items : list (string * value)) (key : string)
    (default : value) : value :=
  match lookup_item key items with
  | Some x => x
  | None => default
  end.

(** [v.get(key, default)]. *)
Definition dict_get (v : value) (key : string) (default : value) : result value :=
  (let? items := get_method v in ok (lookup_default items key default))%res.

(** A byte that continues a character of a UTF-8 text: [10xxxxxx]. *)
Definition is_continuation (c : ascii) : bool :=
  match c with
  | Ascii _ _ _ _ _ _ false true => true
  | _ => false
  end.

(** The first [n] characters of a text: a character is a byte that is no
    continuation, with the continuation bytes that follow it. *)
Fixpoint take_chars (n : nat) (s : string) : string :=
  match s with
  | EmptyString => EmptyString
  | String c rest =>
      if is_continuation c then String c (take_chars n rest)
      else match n with
           | O => EmptyString
           | S n' => String c (take_chars n' rest)
           end
  end.

(** [v[0]]. The keys of a decoded dict are strings, so [0] is not among
    them. *)
Definition index0 (v : value) : result value :=
  match v with
  | VList (x :: _) => ok x
  | VList [] => IndexError "list"
  | VStr (String c rest) => ok (VStr (take_chars 1 (String c rest)))
  | VStr EmptyString => IndexError "string"
  | VDict _ => fail (Exception "KeyError" "0")
  | _ => not_subscriptable v
  end.

(** [v[:n]]. *)
Definition slice_to (n : nat) (v : value) : result value :=
  match v with
  | VStr s => ok (VStr (take_chars n s))
  | VList l => ok (VList (firstn n l))
  | VDict _ => TypeError "unhashable type: 'slice'"
  | _ => not_subscriptable v
  end.

(** [s.replace(old, new)] where [old] is one character, as at both call
    sites of the program. *)
Fixpoint str_replace (old : ascii) (new : string) (s : string) : string :=
  match s with
  | EmptyString => EmptyString
  | String c rest =>
      if Ascii.eqb c old then new ++ str_replace old new rest
      else String c (str_replace old new rest)
  end.

Definition replace_method (v : value) (old : ascii) (new : string) : result string :=
  match v with
  | VStr s => ok (str_replace old new s)
  | _ => AttributeError v "replace"
  end.

(** Truth value of [v] in a condition. *)
Definition truthy (v : value) : bool :=
  match v with
  | VNone => false
  | VBool b => b
  | VInt n => negb (n =? 0)
  | VStr s => negb (String.eqb s EmptyString)
  | VList l => match l with [] => false | _ => true end
  | VDict d => match d with [] => false | _ => true end
  end.

(** [v == s] for a string literal [s]. *)
Definition eq_str (v : value) (s : string) : bool :=
  match v with
  | VStr t => String.eqb t s
  | _ => false
  end.

(** The characters of a text, one string each. *)
Fixpoint split_chars (s : string) : list string :=
  match s with
  | EmptyString => []
  | String c rest =>
      let groups := split_chars rest in
      match rest, groups with
      | String d _, first :: others =>
          if is_continuation d then String c first :: others
          else String c EmptyString :: groups
      | _, _ => String c EmptyString :: groups
      end
  end.

Definition chars (s : string) : list value := map VStr (split_chars s).

(** Iteration over [v], as [list.extend(v)] does it. *)
Definition iterate (v : value) : result (list value) :=
  match v with
  | VList l => ok l
  | VDict d => ok (map (fun kv => VStr (fst kv)) d)
  | VStr s => ok (chars s)
  | _ => TypeError ("'" ++ type_name v ++ "' object is not iterable")
  end.

(** ** Binary floating point

    A finite binary64 value is the rational number it stands for.
    [binary64 x] is the value nearest to [x], ties to the even
    significand: 53 bits of significand, exponent of the last bit no less
    than -1074. *)

(** The integer nearest to [x], ties to even. *)
Definition round_half_even (x : Q) : Z :=
  let f := Qfloor x in
  match ((x - inject_Z f) ?= (1 # 2))%Q with
  | Lt => f
  | Gt => f + 1
  | Eq => if Z.even f then f else f + 1
  end.

Definition pow2 (e : Z) : Q := (2 ^ e)%Q.

(** For [x > 0], the [e] with [2^e <= x < 2^(e+1)]. *)
Definition ilog2 (x : Q) : Z :=
  let k := Z.log2 (Qnum x) - Z.log2 (Zpos (Qden x)) in
  if Qle_bool (pow2 k) x then k else k - 1.

(** Rounding of [x > 0]: to a multiple of [2^e], [e] the exponent of the
    last of 53 bits, or -1074 for a subnormal. *)
Definition binary64_pos (x : Q) : Q :=
  let e := Z.max (ilog2 x - 52) (-1074) in
  (inject_Z (round_half_even (x / pow2 e)) * pow2 e)%Q.

Definition binary64 (x : Q) : Q :=
  match (x ?= 0)%Q with
  | Eq => 0%Q
  | Gt => binary64_pos x
  | Lt => (- binary64_pos (- x))%Q
  end.

(** The value of a float of the Standard Library's specification of
    IEEE 754, and its division at binary64, to compare [binary64]
    with. *)
Definition value_of (f : spec_float) : Q :=
  match f with
  | S754_finite s m e => (inject_Z (if s then Z.neg m else Z.pos m) * pow2 e)%Q
  | _ => 0%Q
  end.

Definition float_of_int (n : Z) : spec_float :=
  match n with
  | Z0 => S754_zero false
  | Zpos m => S754_finite false m 0
  | Zneg m => S754_finite true m 0
  end.

Definition library_minutes (micros : Z) : Q :=
  value_of (SFdiv 53 1024
              (SFdiv 53 1024 (float_of_int micros) (float_of_int 1000000))
              (float_of_int 60)).

(** ** The outside world *)

Inductive http_method : Type := GET | PUT.

Record request : Type := {
  meth : http_method;
  url : string;
  headers : list (string * string);
  params : list (string * value);
  json_body : option value
}.

(** What the program reads of a [requests.Response]: the status code, the
    reason phrase and the URL (both end up in the message of
    [raise_for_status]) and the outcome of [resp.json()]. *)
Record response : Type := {
  status_code : Z;
  reason : string;
  resp_url : string;
  json : result value
}.

(** A [datetime]: the instant in microseconds since the epoch, and whether
    the object carries a time zone. *)
Record datetime : Type := {
  instant : Z;
  aware : bool
}.

(** One event per call into the outside world, in program order. *)
Inductive event : Type :=
| EvHttp (rq : request)
| EvUtcNow
| EvLocalNow
| EvWrite (s : string)
| EvFlush
| EvRun (argv : list string)
| EvSleep (secs : Z).

Definition trace : Type := list event.

(** The world answers each call; the [nat] is the number of events before
    the call, so the same request may be answered differently later on.
    The last four fields are the pure library functions the program uses:
    [datetime.fromisoformat], [strftime('%H:%M:%S')], the format [.1f] and
    [str] on a value that is not a string. *)
Record World : Type := {
  http : nat -> request -> result response;
  utcnow : nat -> Z;
  localnow : nat -> Z;
  stdout_write : nat -> string -> result unit;
  stdout_flush : nat -> result unit;
  subprocess_run : nat -> list string -> result Z;
  sleep : nat -> Z -> result unit;
  fromisoformat : string -> result datetime;
  strftime_HMS : Z -> string;
  format_1f : Q -> string;
  py_str : value -> string
}.

(** ** Computations: a reader of the world, a state of the trace, and
    exceptions *)

Definition M (A : Type) : Type := World -> trace -> result A * trace.

Definition ret {A : Type} (a : A) : M A := fun _ tr => (inr a, tr).

Definition raise {A : Type} (e : exn) : M A := fun _ tr => (inl e, tr).

Definition bind {A B : Type} (m : M A) (f : A -> M B) : M B :=
  fun w tr =>
    match m w tr with
    | (inl e, tr') => (inl e, tr')
    | (inr a, tr') => f a w tr'
    end.

Definition lift {A : Type} (r : result A) : M A := fun _ tr => (r, tr).

Definition ask : M World := fun w tr => (inr w, tr).

(** [try: body except e: handler e]. *)
Definition try_except {A : Type} (body : M A) (handler : exn -> M A) : M A :=
  fun w tr =>
    match body w tr with
    | (inl e, tr') => handler e w tr'
    | (inr a, tr') => (inr a, tr')
    end.

Declare Scope monad_scope.
Delimit Scope monad_scope with monad.
Notation "x <- c1 ;; c2" := (bind c1 (fun x => c2))
  (at level 61, c1 at next level, right associativity) : monad_scope.
Notation "c1 ;; c2" := (bind c1 (fun _ => c2))
  (at level 61, right associativity) : monad_scope.
Local Open Scope monad_scope.

Fixpoint for_each {A : Type} (body : A -> M unit) (l : list A) : M unit :=
  match l with
  | [] => ret tt
  | x :: rest => body x ;; for_each body rest
  end.

(** *** The calls *)

Definition requests_send (rq : request) : M response :=
  fun w tr => (http w (List.length tr) rq, (tr ++ [EvHttp rq])%list).

Definition datetime_now_utc : M datetime :=
  fun w tr => (inr {| instant := utcnow w (List.length tr); aware := true |},
               (tr ++ [EvUtcNow])%list).

Definition datetime_now : M Z :=
  fun w tr => (inr (localnow w (List.length tr)), (tr ++ [EvLocalNow])%list).

Definition sys_stdout_write (s : string) : M unit :=
  fun w tr => (stdout_write w (List.length tr) s, (tr ++ [EvWrite s])%list).

Definition sys_stdout_flush : M unit :=
  fun w tr => (stdout_flush w (List.length tr), (tr ++ [EvFlush])%list).

(** [print(s)]: the text and the line end, written at once. *)
Definition print (s : string) : M unit := sys_stdout_write (s ++ NL).

(** [subprocess.run(argv, capture_output=True)] without [check]: the exit
    status is in the result, it raises only when the process cannot be
    started. *)
Definition subprocess_run_capture (argv : list string) : M Z :=
  fun w tr => (subprocess_run w (List.length tr) argv, (tr ++ [EvRun argv])%list).

(** [time.sleep(secs)] refuses a negative length before it sleeps. *)
Definition time_sleep (secs : Z) : M unit :=
  if secs <? 0
  then raise (Exception "ValueError" "sleep length must be non-negative")
  else fun w tr => (sleep w (List.length tr) secs, (tr ++ [EvSleep secs])%list).

(** [f"{v}"]: a string is itself, anything else goes through [str]. *)
Definition fmt (w : World) (v : value) : string :=
  match v with
  | VStr s => s
  | _ => py_str w v
  end.

(** ** The program *)

Definition PAGERDUTY_API_URL : string := "https://api.pagerduty.com".
Definition DEFAULT_INTERVAL_MINUTES : Z := 3.

Definition get_headers (api_key : string) : list (string * string) :=
  [ ("Content-Type", "application/json");
    ("Accept", "application/json");
    ("Authorization", "Token token=" ++ api_key) ].

(** [f"{n}"] for an [int]. *)
Definition decimal (n : Z) : string := NilZero.string_of_int (Z.to_int n).

(** [resp.raise_for_status()]: an [HTTPError] for a status in 400..599,
    with the message the library composes. *)
Definition http_error_msg (r : response) : string :=
  decimal (status_code r)
  ++ (if status_code r <? 500 then " Client Error: " else " Server Error: ")
  ++ reason r ++ " for url: " ++ resp_url r.

Definition raise_for_status (r : response) : result unit :=
  if (400 <=? status_code r) && (status_code r <? 600)
  then fail (Exception "HTTPError" (http_error_msg r))
  else ok tt.

Definition user_request (api_key : string) : request :=
  {| meth := GET;
     url := PAGERDUTY_API_URL ++ "/users/me";
     headers := get_headers api_key;
     params := [];
     json_body := None |}.

Definition get_current_user_id (api_key : string) : M value :=
  resp <- requests_send (user_request api_key) ;;
  lift (raise_for_status resp) ;;
  body <- lift (json resp) ;;
  user <- lift (subscript body "user") ;;
  lift (subscript user "id").

Definition incidents_request (api_key : string) (user_id : value)
    (status : string) : request :=
  {| meth := GET;
     url := PAGERDUTY_API_URL ++ "/incidents";
     headers := get_headers api_key;
     params := [ ("statuses[]", VStr status);
                 ("user_ids[]", user_id);
                 ("limit", VInt 100) ];
     json_body := None |}.

(** The body of the loop of [get_incidents] up to the value handed to
    [incidents.extend]: one request for one status. *)
Definition fetch_status (api_key : string) (user_id : value)
    (status : string) : M (list value) :=
  resp <- requests_send (incidents_request api_key user_id status) ;;
  lift (raise_for_status resp) ;;
  body <- lift (json resp) ;;
  found <- lift (subscript body "incidents") ;;
  lift (iterate found).

(** The loop of [get_incidents], with the list [incidents] it extends
    passed along. *)
Fixpoint get_incidents_loop (api_key : string) (user_id : value)
    (statuses : list string) (incidents : list value) : M (list value) :=
  match statuses with
  | [] => ret incidents
  | status :: rest =>
      found <- fetch_status api_key user_id status ;;
      get_incidents_loop api_key user_id rest (incidents ++ found)%list
  end.

Definition get_incidents (api_key : string) (user_id : value) : M (list value) :=
  get_incidents_loop api_key user_id ["triggered"; "acknowledged"] [].

Definition ack_request (w : World) (api_key : string) (incident_id : value)
    : request :=
  {| meth := PUT;
     url := PAGERDUTY_API_URL ++ "/incidents/" ++ fmt w incident_id;
     headers := get_headers api_key;
     params := [];
     json_body :=
       Some (VDict [ ("incident",
                      VDict [ ("type", VStr "incident_reference");
                              ("status", VStr "acknowledged") ]) ]) |}.

Definition acknowledge_incident (api_key : string) (incident_id : value)
    : M bool :=
  w <- ask ;;
  resp <- requests_send (ack_request w api_key incident_id) ;;
  ret (status_code resp =? 200).

Definition parse_created_at (w : World) (created_at : value) : result datetime :=
  (let? text := replace_method created_at "Z"%char "+00:00" in
   fromisoformat w text)%res.

(** [now - created]: both must carry a time zone ([now] does). *)
Definition datetime_sub (now created : datetime) : result Z :=
  if aware created
  then ok (instant now - instant created)
  else fail (Exception "TypeError"
               "can't subtract offset-naive and offset-aware datetimes").

(** [delta.total_seconds()] for a difference of [micros] microseconds:
    the true division of two integers, rounded once. *)
Definition total_seconds (micros : Z) : Q := binary64 (micros # 1000000).

(** [delta.total_seconds() / 60]: a division of floats, rounded again. *)
Definition minutes_of_micros (micros : Z) : Q :=
  binary64 (total_seconds micros / 60).

Definition get_incident_age_minutes (incident : value) : M Q :=
  w <- ask ;;
  text <- lift (subscript incident "created_at") ;;
  created <- lift (parse_created_at w text) ;;
  now <- datetime_now_utc ;;
  delta <- lift (datetime_sub now created) ;;
  ret (minutes_of_micros delta).

Definition send_terminal_notification (title body : string) : M unit :=
  let notification := ESC ++ "]9;" ++ title ++ ": " ++ body ++ BEL in
  sys_stdout_write notification ;;
  sys_stdout_flush ;;
  let kitty_notif := ESC ++ "]99;i=1:d=0;" ++ body ++ ESC ++ "\" in
  sys_stdout_write kitty_notif ;;
  sys_stdout_flush.

Definition osascript_argv (title body : string) : list string :=
  let script :=
    "display notification " ++ DQUOTE ++ body ++ DQUOTE
    ++ " with title " ++ DQUOTE ++ title ++ DQUOTE in
  ["osascript"; "-e"; script].

Definition send_macos_notification (title body : string) : M unit :=
  subprocess_run_capture (osascript_argv title body) ;;
  ret tt.

Definition send_notification (title body : string) : M unit :=
  send_terminal_notification title body ;;
  send_macos_notification title body.

Definition format_incident_oneline (w : World) (incident : value) : result string :=
  (let? items := get_method incident in
   let? id := subscript incident "id" in
   let inc_number := lookup_default items "incident_number" id in
   let? service_obj := dict_get incident "service" (VDict []) in
   let? service := dict_get service_obj "summary" (VStr "Unknown") in
   let? summary_all := dict_get incident "summary" (VStr "No summary") in
   let? summary := slice_to 60 summary_all in
   let? created_all := dict_get incident "created_at" (VStr EmptyString) in
   let? created_cut := slice_to 19 created_all in
   let? created := replace_method created_cut "T"%char " " in
   let? assignments := dict_get incident "assignments" VNone in
   let? assignee :=
     if truthy assignments then
       let? assigned := subscript incident "assignments" in
       let? first := index0 assigned in
       let? assignee_obj := dict_get first "assignee" (VDict []) in
       dict_get assignee_obj "summary" (VStr "Unknown")
     else ok (VStr "Unassigned") in
   ok ("[#" ++ fmt w inc_number ++ "] " ++ fmt w service ++ ": "
       ++ fmt w summary ++ NL ++ "    Created: " ++ created
       ++ " | Assignee: " ++ fmt w assignee))%res.

(** [[i for i in incidents if i["status"] == status]]. *)
Fixpoint with_status (status : string) (incidents : list value)
    : result (list value) :=
  match incidents with
  | [] => ok []
  | i :: rest =>
      (let? s := subscript i "status" in
       let? kept := with_status status rest in
       ok (if eq_str s status then i :: kept else kept))%res
  end.

(** [age_min >= interval_minutes]. *)
Definition old_enough (age_min : Q) (interval_minutes : Z) : bool :=
  Qle_bool (inject_Z interval_minutes) age_min.

(** The body of [if acknowledge_incident(...)]: the log lines and the
    notification for an incident that was just acknowledged. *)
Definition announce (inc : value) (age_min : Q) : M unit :=
  w <- ask ;;
  now <- datetime_now ;;
  let timestamp := strftime_HMS w now in
  details <- lift (format_incident_oneline w inc) ;;
  print ("[" ++ timestamp ++ "] Auto-acked (" ++ format_1f w age_min
         ++ " min old):") ;;
  print ("    " ++ details) ;;
  print EmptyString ;;
  service_obj <- lift (dict_get inc "service" (VDict [])) ;;
  service <- lift (dict_get service_obj "summary" (VStr EmptyString)) ;;
  summary_all <- lift (dict_get inc "summary" (VStr EmptyString)) ;;
  summary <- lift (slice_to 50 summary_all) ;;
  send_notification "PagerDuty Auto-Ack"
    (fmt w service ++ ": " ++ fmt w summary).

(** The body of [for inc in triggered] in [background_ack]. *)
Definition process_incident (api_key : string) (interval_minutes : Z)
    (inc : value) : M unit :=
  age_min <- get_incident_age_minutes inc ;;
  if old_enough age_min interval_minutes then
    id <- lift (subscript inc "id") ;;
    acked <- acknowledge_incident api_key id ;;
    if acked : bool then announce inc age_min else ret tt
  else ret tt.

(** The body of [try:] in the loop: one cycle and its sleep. *)
Definition cycle (api_key : string) (user_id : value) (interval_minutes : Z)
    : M unit :=
  let sleep_seconds := interval_minutes * 60 in
  incidents <- get_incidents api_key user_id ;;
  triggered <- lift (with_status "triggered" incidents) ;;
  for_each (process_incident api_key interval_minutes) triggered ;;
  time_sleep sleep_seconds.

Inductive loop_ctl : Type := Continue | Break.

(** One turn of [while True]: the [try] with its two [except] clauses. *)
Definition loop_iteration (api_key : string) (user_id : value)
    (interval_minutes : Z) : M loop_ctl :=
  let sleep_seconds := interval_minutes * 60 in
  try_except
    (cycle api_key user_id interval_minutes ;; ret Continue)
    (fun e =>
       match e with
       | KeyboardInterrupt =>
           print (NL ++ "Stopping background ack daemon.") ;;
           ret Break
       | Exception _ msg =>
           print ("Error: " ++ msg) ;;
           time_sleep sleep_seconds ;;
           ret Continue
       end).

(** How a run of the daemon stands after a number of turns: it left the
    loop, or it is still in it. *)
Inductive daemon_state : Type := Stopped | Running.

Fixpoint while_true (turns : nat) (iteration : M loop_ctl) : M daemon_state :=
  match turns with
  | O => ret Running
  | S turns' =>
      ctl <- iteration ;;
      match ctl with
      | Break => ret Stopped
      | Continue => while_true turns' iteration
      end
  end.

Definition background_ack (turns : nat) (api_key : string)
    (interval_minutes : Z) : M daemon_state :=
  w <- ask ;;
  print ("Background ack daemon started. Auto-ack threshold: "
         ++ py_str w (VInt interval_minutes) ++ " min") ;;
  print ("Checking every " ++ py_str w (VInt interval_minutes)
         ++ " minutes. Press Ctrl+C to stop." ++ NL) ;;
  user_id <- get_current_user_id api_key ;;
  while_true turns (loop_iteration api_key user_id interval_minutes).

(** ** Reading a trace *)

Definition is_put (ev : event) : bool :=
  match ev with
  | EvHttp rq => match meth rq with PUT => true | GET => false end
  | _ => false
  end.

Definition is_utcnow (ev : event) : bool :=
  match ev with
  | EvUtcNow => true
  | _ => false
  end.


(** The acknowledgment requests of a trace, in order. *)
Definition acknowledgments (tr : trace) : list event := filter is_put tr.

Definition clock_reads (tr : trace) : nat := List.length (filter is_utcnow tr).


(** ** Sample worlds and payloads *)

Definition sample_fromisoformat (text : string) : result datetime :=
  if String.eqb text "2024-01-01T00:00:00+00:00" then
    ok {| instant := 1704067200000000; aware := true |}
  else if String.eqb text "2024-01-01T00:09:00+00:00" then
    ok {| instant := 1704067740000000; aware := true |}
  else if String.eqb text "2024-01-01T00:07:00.000001+00:00" then
    ok {| instant := 1704067620000001; aware := true |}
  else if String.eqb text "2024-01-01T00:07:00+00:00" then
    ok {| instant := 1704067620000000; aware := true |}
  else fail (Exception "ValueError" ("Invalid isoformat string: '" ++ text ++ "'")).

(** 2024-01-01T00:10:00Z, in microseconds. *)
Definition ten_past_midnight : Z := 1704067800000000.

Definition sample_incident (id status created_at : string) : value :=
  VDict [ ("id", VStr id);
          ("incident_number", VInt 7);
          ("status", VStr status);
          ("created_at", VStr created_at);
          ("service", VDict [ ("summary", VStr "db") ]);
          ("summary", VStr "disk full") ].

Definition json_response (code : Z) (body : value) : response :=
  {| status_code := code; reason := "-"; resp_url := PAGERDUTY_API_URL;
     json := ok body |}.

(** A remote that lists [triggered] and [acknowledged], names the user
    PUSER and answers every update with the status [put_status]. *)
Definition sample_server (triggered acknowledged : list value) (put_status : Z)
    : nat -> request -> result response :=
  fun _ rq =>
    match meth rq with
    | PUT => ok (json_response put_status (VDict []))
    | GET =>
        match lookup_item "statuses[]" (params rq) with
        | Some status =>
            if eq_str status "triggered"
            then ok (json_response 200 (VDict [ ("incidents", VList triggered) ]))
            else ok (json_response 200 (VDict [ ("incidents", VList acknowledged) ]))
        | None =>
            ok (json_response 200 (VDict [ ("user", VDict [ ("id", VStr "PUSER") ]) ]))
        end
    end.

Definition sample_world (server : nat -> request -> result response)
    (clock : nat -> Z) (run : nat -> list string -> result Z) : World :=
  {| http := server;
     utcnow := clock;
     localnow := clock;
     stdout_write := fun _ _ => ok tt;
     stdout_flush := fun _ => ok tt;
     subprocess_run := run;
     sleep := fun _ _ => ok tt;
     fromisoformat := sample_fromisoformat;
     strftime_HMS := fun _ => "00:10:00";
     format_1f := fun _ => "10.0";
     py_str := fun v => match v with VInt 3 => "3" | VInt 7 => "7" | _ => "?" end |}.

Definition helper_runs : nat -> list string -> result Z := fun _ _ => ok 0.

(** No [osascript] on the machine: the process cannot be started. *)
Definition helper_missing : nat -> list string -> result Z :=
  fun _ _ => fail (Exception "FileNotFoundError"
                     "[Errno 2] No such file or directory: 'osascript'").

Definition old_incident : value :=
  sample_incident "P1" "triggered" "2024-01-01T00:00:00Z".
Definition young_incident : value :=
  sample_incident "P2" "triggered" "2024-01-01T00:09:00Z".

(** Two triggered incidents, 10 minutes and 1 minute old at every reading
    of the clock; updates succeed. *)
Definition scenario_world : World :=
  sample_world (sample_server [old_incident; young_incident] [] 200)
    (fun _ => ten_past_midnight) helper_runs.

(** Every update is answered 409 Conflict. *)
Definition conflict_world : World :=
  sample_world (sample_server [old_incident; young_incident] [] 409)
    (fun _ => ten_past_midnight) helper_runs.

(** Stand-ins for the records of the two lists. *)
Definition record_of (id status : string) : value :=
  sample_incident id status "2024-01-01T00:00:00Z".

Definition two_and_three_world : World :=
  sample_world
    (sample_server
       [record_of "T1" "triggered"; record_of "T2" "triggered"]
       [record_of "A1" "acknowledged"; record_of "A2" "acknowledged";
        record_of "A3" "acknowledged"] 200)
    (fun _ => ten_past_midnight) helper_runs.

(** Two old triggered incidents, updates succeed, no [osascript]. *)
Definition older_incident : value :=
  sample_incident "P0" "triggered" "2024-01-01T00:00:00Z".

Definition helper_missing_world : World :=
  sample_world (sample_server [old_incident; older_incident] [] 200)
    (fun _ => ten_past_midnight) helper_missing.

(** The first request of the run fails in transport; the remote is fine
    afterwards. *)
Definition flaky_server : nat -> request -> result response :=
  fun n rq =>
    match n with
    | O => fail (Exception "ConnectionError" "connection refused")
    | S _ => sample_server [old_incident; young_incident] [] 200 n rq
    end.

Definition flaky_world : World :=
  sample_world flaky_server (fun _ => ten_past_midnight) helper_runs.

(** Ctrl-C arrives while the daemon sleeps. *)
Definition interrupted_world : World :=
  {| http := sample_server [old_incident; young_incident] [] 200;
     utcnow := fun _ => ten_past_midnight;
     localnow := fun _ => ten_past_midnight;
     stdout_write := fun _ _ => ok tt;
     stdout_flush := fun _ => ok tt;
     subprocess_run := helper_runs;
     sleep := fun _ _ => fail KeyboardInterrupt;
     fromisoformat := sample_fromisoformat;
     strftime_HMS := fun _ => "00:10:00";
     format_1f := fun _ => "10.0";
     py_str := fun _ => "3" |}.



(** The first request of the run fails in transport and standard output
    is closed. *)
Definition flaky_closed_stdout_world : World :=
  {| http := flaky_server;
     utcnow := fun _ => ten_past_midnight;
     localnow := fun _ => ten_past_midnight;
     stdout_write := fun _ _ =>
       fail (Exception "ValueError" "I/O operation on closed file.");
     stdout_flush := fun _ => ok tt;
     subprocess_run := helper_runs;
     sleep := fun _ _ => ok tt;
     fromisoformat := sample_fromisoformat;
     strftime_HMS := fun _ => "00:10:00";
     format_1f := fun _ => "10.0";
     py_str := fun _ => "?" |}.

(** Standard output goes away once the daemon has started: the two banner
    lines are written, every later write raises. *)
Definition stdout_dies_world : World :=
  {| http := sample_server [old_incident; young_incident] [] 200;
     utcnow := fun _ => ten_past_midnight;
     localnow := fun _ => ten_past_midnight;
     stdout_write := fun n _ =>
       if (n <? 2)%nat then ok tt
       else fail (Exception "BrokenPipeError" "[Errno 32] Broken pipe");
     stdout_flush := fun _ => ok tt;
     subprocess_run := helper_runs;
     sleep := fun _ _ => ok tt;
     fromisoformat := sample_fromisoformat;
     strftime_HMS := fun _ => "00:10:00";
     format_1f := fun _ => "10.0";
     py_str := fun _ => "3" |}.

(** Stdout is closed: every write raises. *)
Definition closed_stdout_world : World :=
  {| http := sample_server [] [] 200;
     utcnow := fun _ => ten_past_midnight;
     localnow := fun _ => ten_past_midnight;
     stdout_write := fun _ _ =>
       fail (Exception "ValueError" "I/O operation on closed file.");
     stdout_flush := fun _ => ok tt;
     subprocess_run := helper_runs;
     sleep := fun _ _ => ok tt;
     fromisoformat := sample_fromisoformat;
     strftime_HMS := fun _ => "00:10:00";
     format_1f := fun _ => "10.0";
     py_str := fun _ => "?" |}.

(** Two incidents created at the same instant, 00:07:00; the clock moves
    one microsecond per event and shows 00:09:59.999999 at the third
    event. *)
Definition twin_a : value :=
  sample_incident "P1" "triggered" "2024-01-01T00:07:00Z".
Definition twin_b : value :=
  sample_incident "P2" "triggered" "2024-01-01T00:07:00Z".

Definition ticking_world : World :=
  sample_world (sample_server [twin_a; twin_b] [] 200)
    (fun n => ten_past_midnight - 3 + Z.of_nat n) helper_runs.

(** The trace of a first cycle up to the end of its fetch. *)
Definition fetched : trace :=
  [ EvHttp (incidents_request "key" (VStr "PUSER") "triggered");
    EvHttp (incidents_request "key" (VStr "PUSER") "acknowledged") ].

(** ** Properties of computations *)

(** [m] only ever adds events that satisfy [P]. *)
Definition emits {A : Type} (P : event -> Prop) (m : M A) : Prop :=
  forall w tr, exists evs, snd (m w tr) = (tr ++ evs)%list /\ Forall P evs.

(** [m] first of all adds the event [ev]. *)
Definition starts_with {A : Type} (ev : event) (m : M A) : Prop :=
  forall w tr, exists rest, snd (m w tr) = (tr ++ ev :: rest)%list.

(** Events that only report: the local clock, standard output, the helper
    process. *)
Definition is_output (ev : event) : Prop :=
  match ev with
  | EvLocalNow | EvWrite _ | EvFlush | EvRun _ => True
  | _ => False
  end.

(** Events on standard output. *)
Definition is_stdout (ev : event) : Prop :=
  match ev with
  | EvWrite _ | EvFlush => True
  | _ => False
  end.

(** Events that are not an update request. *)
Definition not_put (ev : event) : Prop := is_put ev = false.

Definition any_event (ev : event) : Prop := True.

Ltac emits_call :=
  let w := fresh "w" in
  let tr := fresh "tr" in
  intros w tr; eexists [_]; split;
  [ reflexivity | constructor; [ exact I | constructor ] ].

(** ** The one-shot commands *)

(** [s * n]. *)
Fixpoint str_times (s : string) (n : nat) : string :=
  match n with
  | O => EmptyString
  | S n' => s ++ str_times s n'
  end.

(** [len(l)] as it is formatted in an f-string. *)
Definition fmt_len (w : World) (l : list value) : string :=
  py_str w (VInt (Z.of_nat (List.length l))).

Definition format_incident (w : World) (incident : value) : result string :=
  (let? service_obj := dict_get incident "service" (VDict []) in
   let? service := dict_get service_obj "summary" (VStr "Unknown") in
   let? summary_all := dict_get incident "summary" (VStr "No summary") in
   let? summary := slice_to 80 summary_all in
   let? created_all := dict_get incident "created_at" (VStr EmptyString) in
   let? created_cut := slice_to 19 created_all in
   let? created := replace_method created_cut "T"%char " " in
   let? assignments := dict_get incident "assignments" VNone in
   let? assignee :=
     if truthy assignments then
       let? assigned := subscript incident "assignments" in
       let? first := index0 assigned in
       let? assignee_obj := dict_get first "assignee" (VDict []) in
       dict_get assignee_obj "summary" (VStr "Unknown")
     else ok (VStr "Unassigned") in
   let? priority_obj := dict_get incident "priority" VNone in
   let priority := if truthy priority_obj then " [P1]" else EmptyString in
   let? id := subscript incident "id" in
   ok ("  " ++ fmt w id ++ priority ++ NL ++ "    " ++ fmt w service ++ NL
       ++ "    " ++ fmt w summary ++ NL ++ "    Created: " ++ created
       ++ " | Assignee: " ++ fmt w assignee))%res.

(** The body of [for inc in ...] in [list_incidents]. *)
Definition list_one (inc : value) : M unit :=
  w <- ask ;;
  text <- lift (format_incident w inc) ;;
  print text ;;
  print EmptyString.

(** One group of [list_incidents]: the header with the count, then the
    incidents or the line that says there are none. *)
Definition list_group (title : string) (none : string) (group : list value)
    : M unit :=
  w <- ask ;;
  print (NL ++ str_times "=" 60) ;;
  print (title ++ " (" ++ fmt_len w group ++ ")") ;;
  print (str_times "=" 60) ;;
  match group with
  | [] => print none
  | _ :: _ => for_each list_one group
  end.

Definition list_incidents (api_key : string) : M unit :=
  user_id <- get_current_user_id api_key ;;
  incidents <- get_incidents api_key user_id ;;
  triggered <- lift (with_status "triggered" incidents) ;;
  acknowledged <- lift (with_status "acknowledged" incidents) ;;
  list_group "TRIGGERED" "  No triggered incidents" triggered ;;
  list_group "ACKNOWLEDGED" "  No acknowledged incidents" acknowledged ;;
  print EmptyString.

(** The body of [for inc in triggered] in [ack_all]. *)
Definition ack_one (api_key : string) (inc : value) : M unit :=
  w <- ask ;;
  id <- lift (subscript inc "id") ;;
  acked <- acknowledge_incident api_key id ;;
  if acked : bool then
    shown <- lift (subscript inc "id") ;;
    summary_all <- lift (dict_get inc "summary" (VStr EmptyString)) ;;
    summary <- lift (slice_to 50 summary_all) ;;
    print ("  Acknowledged: " ++ fmt w shown ++ " - " ++ fmt w summary)
  else
    shown <- lift (subscript inc "id") ;;
    print ("  FAILED: " ++ fmt w shown).

Definition ack_all (api_key : string) : M unit :=
  user_id <- get_current_user_id api_key ;;
  incidents <- get_incidents api_key user_id ;;
  triggered <- lift (with_status "triggered" incidents) ;;
  match triggered with
  | [] => print "No triggered incidents to acknowledge."
  | _ :: _ =>
      w <- ask ;;
      print ("Acknowledging " ++ fmt_len w triggered ++ " incident(s)...") ;;
      for_each (ack_one api_key) triggered ;;
      print "Done."
  end.

Definition test_alert : M unit :=
  print "Sending test notifications..." ;;
  send_notification "PagerDuty Test" "This is a test notification from pd-cli.py" ;;
  print "Done. Check your terminal and macOS notification center.".

(** *** [main] *)

(** The parsed command line. *)
Record Args : Type := {
  arg_ack_all : bool;
  arg_background_ack : bool;
  arg_interval : Z;
  arg_test_alert : bool
}.

(** The configuration file: its path, whether it exists, and what
    opening it and [yaml.safe_load] give. *)
Record ConfigFile : Type := {
  config_path : string;
  config_exists : bool;
  config_loaded : result value
}.

(** How [main] ends: it returns, it leaves through [sys.exit(code)]
    (nothing in the program catches that), or the daemon is still in its
    loop after the given number of turns. *)
Inductive ending : Type :=
| Returned
| Exited (code : Z)
| Looping.

(** [load_config]: the exit status of [sys.exit], or the loaded value. *)
Definition load_config (file : ConfigFile) : M (Z + value) :=
  if negb (config_exists file) then
    print ("Error: Config file not found at " ++ config_path file) ;;
    ret (inl 1)
  else
    loaded <- lift (config_loaded file) ;;
    ret (inr loaded).

(** [main] after [parser.parse_args()]. The key goes into the headers
    through an f-string, so it is formatted once here. *)
Definition main (turns : nat) (args : Args) (file : ConfigFile) : M ending :=
  if arg_test_alert args then
    test_alert ;; ret Returned
  else
    loaded <- load_config file ;;
    match loaded with
    | inl code => ret (Exited code)
    | inr config =>
        api_key <- lift (dict_get config "pagerduty_api_key" VNone) ;;
        if negb (truthy api_key) then
          print "Error: pagerduty_api_key not found in config" ;;
          ret (Exited 1)
        else
          w <- ask ;;
          let key := fmt w api_key in
          if arg_ack_all args then
            ack_all key ;; ret Returned
          else if arg_background_ack args then
            state <- background_ack turns key (arg_interval args) ;;
            ret (match state with Stopped => Returned | Running => Looping end)
          else
            list_incidents key ;; ret Returned
    end.

(** ** Reading a trace, continued *)

Definition is_http (ev : event) : Prop :=
  match ev with
  | EvHttp _ => True
  | _ => False
  end.

(** A request that only reads. *)
Definition is_get (ev : event) : Prop :=
  match ev with
  | EvHttp rq => meth rq = GET
  | _ => False
  end.

(** Requests and printed lines, nothing else: no clock, no sleep, no
    helper process. *)
Definition is_http_or_write (ev : event) : Prop :=
  match ev with
  | EvHttp _ | EvWrite _ => True
  | _ => False
  end.

Definition is_get_or_write (ev : event) : Prop :=
  match ev with
  | EvHttp rq => meth rq = GET
  | EvWrite _ => True
  | _ => False
  end.

Definition is_user_request (ev : event) : bool :=
  match ev with
  | EvHttp rq => String.eqb (url rq) (PAGERDUTY_API_URL ++ "/users/me")
  | _ => false
  end.

Definition no_user_request (ev : event) : Prop := is_user_request ev = false.

(** How often the identity of the user was asked for. *)
Definition user_lookups (tr : trace) : nat :=
  List.length (filter is_user_request tr).

Fixpoint contains_char (c : ascii) (s : string) : bool :=
  match s with
  | EmptyString => false
  | String d rest => Ascii.eqb d c || contains_char c rest
  end.

(** A line on standard output. *)
Definition is_write (ev : event) : Prop :=
  match ev with
  | EvWrite _ => True
  | _ => False
  end.

(** [inc["id"]]. *)
Definition id_of (inc : value) : result value := subscript inc "id".

(** ** More sample worlds *)

(** The key is refused: every request is answered 401. *)
Definition unauthorized_world : World :=
  sample_world
    (fun _ rq => ok {| status_code := 401; reason := "Unauthorized";
                       resp_url := url rq; json := ok (VDict []) |})
    (fun _ => ten_past_midnight) helper_runs.

(** Nothing is triggered; one incident is acknowledged. *)
Definition quiet_world : World :=
  sample_world (sample_server [] [record_of "A1" "acknowledged"] 200)
    (fun _ => ten_past_midnight) helper_runs.

(** [fromisoformat] finds no time zone in the text. *)
Definition naive_world : World :=
  {| http := sample_server [old_incident] [] 200;
     utcnow := fun _ => ten_past_midnight;
     localnow := fun _ => ten_past_midnight;
     stdout_write := fun _ _ => ok tt;
     stdout_flush := fun _ => ok tt;
     subprocess_run := helper_runs;
     sleep := fun _ _ => ok tt;
     fromisoformat := fun _ => ok {| instant := 1704067200000000; aware := false |};
     strftime_HMS := fun _ => "00:10:00";
     format_1f := fun _ => "10.0";
     py_str := fun _ => "?" |}.

(** The first request fails in transport, and Ctrl-C arrives during the
    sleep that follows the error. *)
Definition flaky_interrupted_world : World :=
  {| http := flaky_server;
     utcnow := fun _ => ten_past_midnight;
     localnow := fun _ => ten_past_midnight;
     stdout_write := fun _ _ => ok tt;
     stdout_flush := fun _ => ok tt;
     subprocess_run := helper_runs;
     sleep := fun _ _ => fail KeyboardInterrupt;
     fromisoformat := sample_fromisoformat;
     strftime_HMS := fun _ => "00:10:00";
     format_1f := fun _ => "10.0";
     py_str := fun _ => "?" |}.

(** An incident created at 00:09, seen by a clock that shows 00:07. *)
Definition early_clock_world : World :=
  sample_world (sample_server [young_incident] [] 200)
    (fun _ => 1704067620000000) helper_runs.

(** One of the records of the fetch has no status. *)
Definition statusless_world : World :=
  sample_world (sample_server [old_incident; VDict [("id", VStr "P3")]] [] 200)
    (fun _ => ten_past_midnight) helper_runs.

(** The remote sends the service of an incident as [null]. *)
Definition null_service_incident : value :=
  VDict [ ("id", VStr "P9");
          ("status", VStr "triggered");
          ("created_at", VStr "2024-01-01T00:00:00Z");
          ("service", VNone);
          ("summary", VStr "disk full") ].

Definition no_config : ConfigFile :=
  {| config_path := "/home/me/.config/pagerduty_tui.yaml";
     config_exists := false;
     config_loaded := fail (Exception "FileNotFoundError" "no such file") |}.

Definition config_without_key : ConfigFile :=
  {| config_path := "/home/me/.config/pagerduty_tui.yaml";
     config_exists := true;
     config_loaded := ok (VDict [ ("pagerduty_domain", VStr "acme") ]) |}.

Definition config_with_key : ConfigFile :=
  {| config_path := "/home/me/.config/pagerduty_tui.yaml";
     config_exists := true;
     config_loaded := ok (VDict [ ("pagerduty_api_key", VStr "key") ]) |}.

Definition every_flag : Args :=
  {| arg_ack_all := true; arg_background_ack := true;
     arg_interval := 3; arg_test_alert := true |}.

Definition ack_all_flag : Args :=
  {| arg_ack_all := true; arg_background_ack := true;
     arg_interval := 3; arg_test_alert := false |}.

(** ** The program on sample inputs *)

Example parse_created_at_utc_suffix :
  parse_created_at scenario_world (VStr "2024-01-01T00:00:00Z") =
  fromisoformat scenario_world "2024-01-01T00:00:00+00:00".
Proof. reflexivity. Qed.

Example format_incident_oneline_sample :
  format_incident_oneline scenario_world old_incident =
  inr ("[#7] db: disk full" ++ NL
       ++ "    Created: 2024-01-01 00:00:00 | Assignee: Unassigned").
Proof. reflexivity. Qed.

Example with_status_sample :
  with_status "triggered"
    [old_incident; record_of "A1" "acknowledged"; young_incident] =
  inr [old_incident; young_incident].
Proof. reflexivity. Qed.

Example with_status_missing_key :
  with_status "triggered" [old_incident; VDict []] =
  inl (Exception "KeyError" "'status'").
Proof. reflexivity. Qed.

Example get_incident_age_minutes_sample :
  fst (get_incident_age_minutes old_incident scenario_world []) =
    inr (minutes_of_micros 600000000) /\
  (minutes_of_micros 600000000 == 10)%Q.
Proof. split; [reflexivity | vm_compute; reflexivity]. Qed.

(** [minutes_of_micros] gives what the Standard Library's specification
    of IEEE 754 division gives, here at ages around the boundaries of
    some intervals, at a negative age and at differences beyond 2^53
    microseconds. *)
Example minutes_of_micros_agrees_with_library :
  forallb (fun micros => Qeq_bool (minutes_of_micros micros) (library_minutes micros))
    [ 0; 1; -1; 7; 999999; 1000000; 1000001; 59999999; 60000000; 60000001;
      179999999; 180000000; 180000001; 600000000; 3599999999; 86400000000;
      31536000000000; -123456789; 9007199254740993; 123456789012345678;
      8053063679999999; 8053063680000000; 17179869179999999;
      17999999999999999; 18000000000000000 ] = true.
Proof. vm_compute. reflexivity. Qed.

(** [[:n]] counts characters: of a text that starts with a letter of two
    bytes, the first character is both bytes. *)
Example slice_to_counts_characters :
  slice_to 1 (VStr (String "195" (String "169" "t" ++ "e"))) =
  inr (VStr (String "195" (String "169" EmptyString))).
Proof. reflexivity. Qed.

(** Ctrl-C during the sleep: the shutdown message, and the loop is left. *)
Example background_ack_interrupted :
  fst (background_ack 5 "key" 3 interrupted_world []) = inr Stopped /\
  firstn 2 (rev (snd (background_ack 5 "key" 3 interrupted_world []))) =
    [EvWrite (NL ++ "Stopping background ack daemon." ++ NL); EvSleep 180].
Proof. split; reflexivity. Qed.

(** A negative interval ends the daemon at its first sleep: [time.sleep]
    refuses it in the cycle, and again in the handler. *)
Example background_ack_negative_interval :
  fst (background_ack 5 "key" (-1) scenario_world []) =
  inl (Exception "ValueError" "sleep length must be non-negative").
Proof. reflexivity. Qed.

(** ** Basic facts about computations *)

Lemma bind_inr {A B : Type} (m : M A) (f : A -> M B) w tr a tr1 :
  m w tr = (inr a, tr1) -> bind m f w tr = f a w tr1.
Proof. intros H. unfold bind. rewrite H. reflexivity. Qed.

Lemma bind_inl {A B : Type} (m : M A) (f : A -> M B) w tr e tr1 :
  m w tr = (inl e, tr1) -> bind m f w tr = (inl e, tr1).
Proof. intros H. unfold bind. rewrite H. reflexivity. Qed.

Lemma for_each_cons {A : Type} (body : A -> M unit) x l w tr :
  for_each body (x :: l) w tr =
  match body x w tr with
  | (inl e, tr1) => (inl e, tr1)
  | (inr _, tr1) => for_each body l w tr1
  end.
Proof. reflexivity. Qed.

Lemma for_each_app {A : Type} (body : A -> M unit) l1 l2 w tr :
  for_each body (l1 ++ l2)%list w tr =
  match for_each body l1 w tr with
  | (inl e, tr1) => (inl e, tr1)
  | (inr _, tr1) => for_each body l2 w tr1
  end.
Proof.
  revert tr. induction l1 as [|x l1 IH]; intros tr.
  - reflexivity.
  - simpl app. rewrite !for_each_cons.
    destruct (body x w tr) as [[e|[]] tr1]; [reflexivity|]. apply IH.
Qed.

Lemma while_true_continue turns (iteration : M loop_ctl) w tr tr1 :
  iteration w tr = (inr Continue, tr1) ->
  while_true (S turns) iteration w tr = while_true turns iteration w tr1.
Proof. intros H. simpl. rewrite (bind_inr _ _ _ _ _ _ H). reflexivity. Qed.

(** *** What a computation adds to the trace *)

Section Emits.

Variable P : event -> Prop.

Lemma emits_ret {A : Type} (a : A) : emits P (ret a).
Proof. intros w tr. exists []. split; [symmetry; apply app_nil_r | constructor]. Qed.

Lemma emits_raise {A : Type} e : emits P (@raise A e).
Proof. intros w tr. exists []. split; [symmetry; apply app_nil_r | constructor]. Qed.

Lemma emits_lift {A : Type} (r : result A) : emits P (lift r).
Proof. intros w tr. exists []. split; [symmetry; apply app_nil_r | constructor]. Qed.

Lemma emits_ask : emits P ask.
Proof. intros w tr. exists []. split; [symmetry; apply app_nil_r | constructor]. Qed.

Lemma emits_bind {A B : Type} (m : M A) (f : A -> M B) :
  emits P m -> (forall a, emits P (f a)) -> emits P (bind m f).
Proof.
  intros Hm Hf w tr. unfold bind.
  destruct (Hm w tr) as [evs [E HP]].
  destruct (m w tr) as [[e|a] tr1]; simpl in E; subst tr1.
  - exists evs. split; [reflexivity | exact HP].
  - destruct (Hf a w (tr ++ evs)%list) as [evs' [E' HP']].
    exists (evs ++ evs')%list. split.
    + rewrite E'. symmetry. apply app_assoc.
    + apply Forall_app. split; assumption.
Qed.

Lemma emits_for_each {A : Type} (body : A -> M unit) l :
  (forall x, emits P (body x)) -> emits P (for_each body l).
Proof.
  intros Hbody. induction l as [|x l IH]; simpl.
  - apply emits_ret.
  - apply emits_bind; [apply Hbody | intro; exact IH].
Qed.

Lemma emits_try_except {A : Type} (body : M A) handler :
  emits P body -> (forall e, emits P (handler e)) ->
  emits P (try_except body handler).
Proof.
  intros Hb Hh w tr. unfold try_except.
  destruct (Hb w tr) as [evs [E HP]].
  destruct (body w tr) as [[e|a] tr1]; simpl in E; subst tr1.
  - destruct (Hh e w (tr ++ evs)%list) as [evs' [E' HP']].
    exists (evs ++ evs')%list. split.
    + rewrite E'. symmetry. apply app_assoc.
    + apply Forall_app. split; assumption.
  - exists evs. split; [reflexivity | exact HP].
Qed.

End Emits.

Lemma emits_weaken {A : Type} (P Q : event -> Prop) (m : M A) :
  (forall ev, P ev -> Q ev) -> emits P m -> emits Q m.
Proof.
  intros HPQ Hm w tr. destruct (Hm w tr) as [evs [E HP]].
  exists evs. split; [exact E|]. eapply Forall_impl; eauto.
Qed.

Lemma starts_with_bind {A B : Type} ev (m : M A) (f : A -> M B) :
  starts_with ev m -> (forall a, emits any_event (f a)) ->
  starts_with ev (bind m f).
Proof.
  intros Hm Hf w tr. unfold bind. destruct (Hm w tr) as [rest E].
  destruct (m w tr) as [[e|a] tr1]; simpl in E; subst tr1.
  - exists rest. reflexivity.
  - destruct (Hf a w (tr ++ ev :: rest)%list) as [evs [E' _]].
    exists (rest ++ evs)%list. rewrite E', <- app_assoc. reflexivity.
Qed.

Lemma starts_with_try_except {A : Type} ev (body : M A) handler :
  starts_with ev body -> (forall e, emits any_event (handler e)) ->
  starts_with ev (try_except body handler).
Proof.
  intros Hb Hh w tr. unfold try_except. destruct (Hb w tr) as [rest E].
  destruct (body w tr) as [[e|a] tr1]; simpl in E; subst tr1.
  - destruct (Hh e w (tr ++ ev :: rest)%list) as [evs [E' _]].
    exists (rest ++ evs)%list. rewrite E', <- app_assoc. reflexivity.
  - exists rest. reflexivity.
Qed.

Create HintDb emits.
#[local] Hint Resolve emits_ret emits_raise emits_lift emits_ask emits_bind : emits.

(** Steps that touch nothing outside: [ret], [raise], [lift], [ask]. *)
Ltac emits_pure := auto 20 with emits.

(** *** The calls *)

Lemma sys_stdout_write_emits s : emits is_output (sys_stdout_write s).
Proof. emits_call. Qed.

Lemma sys_stdout_flush_emits : emits is_output sys_stdout_flush.
Proof. emits_call. Qed.

Lemma print_emits s : emits is_output (print s).
Proof. apply sys_stdout_write_emits. Qed.

Lemma datetime_now_emits : emits is_output datetime_now.
Proof. emits_call. Qed.

Lemma subprocess_run_capture_emits argv :
  emits is_output (subprocess_run_capture argv).
Proof. emits_call. Qed.

Lemma time_sleep_emits secs : emits any_event (time_sleep secs).
Proof.
  unfold time_sleep. destruct (secs <? 0); [apply emits_raise|].
  intros w tr. eexists [_]. split; [reflexivity|].
  constructor; [exact I | constructor].
Qed.

Lemma time_sleep_events secs w tr :
  snd (time_sleep secs w tr) = tr \/
  snd (time_sleep secs w tr) = (tr ++ [EvSleep secs])%list.
Proof.
  unfold time_sleep. destruct (secs <? 0); [left | right]; reflexivity.
Qed.

Lemma requests_send_starts rq : starts_with (EvHttp rq) (requests_send rq).
Proof. intros w tr. exists []. reflexivity. Qed.

(** ** The API client *)

Lemma acknowledge_incident_run k id w tr :
  acknowledge_incident k id w tr =
  (match http w (List.length tr) (ack_request w k id) with
   | inl e => inl e
   | inr resp => inr (status_code resp =? 200)
   end,
   (tr ++ [EvHttp (ack_request w k id)])%list).
Proof.
  unfold acknowledge_incident, bind, ask, requests_send, ret.
  destruct (http w (List.length tr) (ack_request w k id)); reflexivity.
Qed.

(** C6. Whenever the update request gets a response, [acknowledge_incident]
    returns without raising, and what it returns is true exactly when the
    status of the response is 200; any other status (a 4xx conflict
    included) gives false. *)
Theorem acknowledge_incident_true_iff_200 k id w tr resp :
  http w (List.length tr) (ack_request w k id) = inr resp ->
  exists acked,
    acknowledge_incident k id w tr =
      (inr acked, (tr ++ [EvHttp (ack_request w k id)])%list) /\
    (acked = true <-> status_code resp = 200).
Proof.
  intros Hresp. exists (status_code resp =? 200). split.
  - rewrite acknowledge_incident_run, Hresp. reflexivity.
  - apply Z.eqb_eq.
Qed.

Lemma acknowledge_incident_conflict_witness :
  http conflict_world 0 (ack_request conflict_world "key" (VStr "P1"))
    = inr (json_response 409 (VDict [])) /\
  exists acked,
    acknowledge_incident "key" (VStr "P1") conflict_world [] =
      (inr acked, [EvHttp (ack_request conflict_world "key" (VStr "P1"))]) /\
    (acked = true <-> status_code (json_response 409 (VDict [])) = 200).
Proof.
  split; [reflexivity|].
  apply (acknowledge_incident_true_iff_200 "key" (VStr "P1") conflict_world []
           (json_response 409 (VDict []))).
  reflexivity.
Defined.

(** The two requests of [get_incidents], one after the other. *)
Lemma get_incidents_run k u w tr :
  get_incidents k u w tr =
  match fetch_status k u "triggered" w tr with
  | (inl e, tr1) => (inl e, tr1)
  | (inr found1, tr1) =>
      match fetch_status k u "acknowledged" w tr1 with
      | (inl e, tr2) => (inl e, tr2)
      | (inr found2, tr2) => (inr (found1 ++ found2)%list, tr2)
      end
  end.
Proof.
  unfold get_incidents. simpl get_incidents_loop.
  destruct (fetch_status k u "triggered" w tr) as [[e|found1] tr1] eqn:E1.
  - apply bind_inl. exact E1.
  - rewrite (bind_inr _ _ _ _ _ _ E1).
    destruct (fetch_status k u "acknowledged" w tr1) as [[e|found2] tr2] eqn:E2.
    + apply bind_inl. exact E2.
    + rewrite (bind_inr _ _ _ _ _ _ E2). reflexivity.
Qed.

Lemma fetch_status_returns k u status w tr resp body found :
  http w (List.length tr) (incidents_request k u status) = inr resp ->
  raise_for_status resp = inr tt ->
  json resp = inr body ->
  subscript body "incidents" = inr (VList found) ->
  fetch_status k u status w tr =
    (inr found, (tr ++ [EvHttp (incidents_request k u status)])%list).
Proof.
  intros Hresp Hst Hjson Hkey.
  unfold fetch_status, bind, requests_send, lift.
  rewrite Hresp, Hst, Hjson, Hkey. reflexivity.
Qed.

Lemma fetch_status_no_put k u status : emits not_put (fetch_status k u status).
Proof.
  unfold fetch_status.
  apply emits_bind; [ | intro; emits_pure ].
  intros w tr. eexists [_]. split; [reflexivity|].
  constructor; [reflexivity | constructor].
Qed.

Lemma get_incidents_no_put k u : emits not_put (get_incidents k u).
Proof.
  unfold get_incidents. simpl get_incidents_loop.
  apply emits_bind; [apply fetch_status_no_put | intro].
  apply emits_bind; [apply fetch_status_no_put | intro].
  apply emits_ret.
Qed.

(** C8. [get_incidents] is all or nothing: if the request for "triggered"
    fails, it raises that failure; if that one succeeds and the request for
    "acknowledged" fails, it raises that failure and the records already
    fetched are not returned; only when both succeed does it return, and
    then the whole concatenation. *)
Theorem get_incidents_all_or_nothing k u w tr :
  match fetch_status k u "triggered" w tr with
  | (inl e, tr1) => get_incidents k u w tr = (inl e, tr1)
  | (inr found1, tr1) =>
      match fetch_status k u "acknowledged" w tr1 with
      | (inl e, tr2) => get_incidents k u w tr = (inl e, tr2)
      | (inr found2, tr2) =>
          get_incidents k u w tr = (inr (found1 ++ found2)%list, tr2)
      end
  end.
Proof.
  rewrite get_incidents_run.
  destruct (fetch_status k u "triggered" w tr) as [[e|found1] tr1]; [reflexivity|].
  destruct (fetch_status k u "acknowledged" w tr1) as [[e|found2] tr2]; reflexivity.
Qed.

(** C9. When the remote answers both requests with a success status and a
    body whose "incidents" is a list, [get_incidents] asks for "triggered"
    first and "acknowledged" second and returns the records of the first
    answer followed by those of the second, each in its own order; 2 and 3
    records give a list of 5. *)
Theorem get_incidents_concatenates k u w tr resp1 body1 found1 resp2 body2 found2 :
  http w (List.length tr) (incidents_request k u "triggered") = inr resp1 ->
  raise_for_status resp1 = inr tt ->
  json resp1 = inr body1 ->
  subscript body1 "incidents" = inr (VList found1) ->
  http w (S (List.length tr)) (incidents_request k u "acknowledged") = inr resp2 ->
  raise_for_status resp2 = inr tt ->
  json resp2 = inr body2 ->
  subscript body2 "incidents" = inr (VList found2) ->
  get_incidents k u w tr =
    (inr (found1 ++ found2)%list,
     (tr ++ [EvHttp (incidents_request k u "triggered");
             EvHttp (incidents_request k u "acknowledged")])%list) /\
  (List.length found1 = 2%nat -> List.length found2 = 3%nat ->
   List.length (found1 ++ found2)%list = 5%nat).
Proof.
  intros H1 S1 J1 K1 H2 S2 J2 K2. split.
  - rewrite get_incidents_run.
    rewrite (fetch_status_returns _ _ _ _ _ _ _ _ H1 S1 J1 K1).
    rewrite (fetch_status_returns k u "acknowledged" w
               (tr ++ [EvHttp (incidents_request k u "triggered")])%list
               resp2 body2 found2); try assumption.
    + rewrite <- app_assoc. reflexivity.
    + rewrite length_app. simpl. rewrite Nat.add_1_r. exact H2.
  - intros L1 L2. rewrite length_app, L1, L2. reflexivity.
Qed.

Lemma get_incidents_two_and_three_witness :
  exists found,
    get_incidents "key" (VStr "PUSER") two_and_three_world [] =
      (inr found,
       [EvHttp (incidents_request "key" (VStr "PUSER") "triggered");
        EvHttp (incidents_request "key" (VStr "PUSER") "acknowledged")]) /\
    found = [record_of "T1" "triggered"; record_of "T2" "triggered";
             record_of "A1" "acknowledged"; record_of "A2" "acknowledged";
             record_of "A3" "acknowledged"] /\
    List.length found = 5%nat.
Proof.
  destruct (get_incidents_concatenates "key" (VStr "PUSER") two_and_three_world []
              (json_response 200
                 (VDict [("incidents",
                          VList [record_of "T1" "triggered";
                                 record_of "T2" "triggered"])]))
              (VDict [("incidents",
                       VList [record_of "T1" "triggered";
                              record_of "T2" "triggered"])])
              [record_of "T1" "triggered"; record_of "T2" "triggered"]
              (json_response 200
                 (VDict [("incidents",
                          VList [record_of "A1" "acknowledged";
                                 record_of "A2" "acknowledged";
                                 record_of "A3" "acknowledged"])]))
              (VDict [("incidents",
                       VList [record_of "A1" "acknowledged";
                              record_of "A2" "acknowledged";
                              record_of "A3" "acknowledged"])])
              [record_of "A1" "acknowledged"; record_of "A2" "acknowledged";
               record_of "A3" "acknowledged"])
    as [Hrun Hlen]; try reflexivity.
  eexists. split; [exact Hrun|]. split; [reflexivity|].
  apply Hlen; reflexivity.
Defined.

(** ** The notifier *)

Lemma send_terminal_notification_emits title body :
  emits is_output (send_terminal_notification title body).
Proof.
  unfold send_terminal_notification.
  repeat first
    [ apply sys_stdout_write_emits | apply sys_stdout_flush_emits
    | apply emits_bind; [ | intro ] ].
Qed.

Lemma send_notification_emits title body :
  emits is_output (send_notification title body).
Proof.
  unfold send_notification, send_macos_notification.
  apply emits_bind; [ apply send_terminal_notification_emits | intro ].
  apply emits_bind; [ apply subprocess_run_capture_emits | intro; apply emits_ret ].
Qed.

Lemma send_terminal_notification_stdout title body :
  emits is_stdout (send_terminal_notification title body).
Proof.
  unfold send_terminal_notification.
  repeat (apply emits_bind; [ | intro ]); emits_call.
Qed.

(** C4, as the program has it. [send_notification] has no handler of its
    own: an exception of the terminal channel goes to the caller and the
    helper process is then not started (up to that point only standard
    output was touched); when the terminal channel succeeds the helper is
    started, an exception from starting it goes to the caller, and only
    its exit status is ignored. *)
Theorem send_notification_propagates title body w tr :
  send_notification title body w tr =
    match send_terminal_notification title body w tr with
    | (inl e, tr1) => (inl e, tr1)
    | (inr _, tr1) =>
        (match subprocess_run w (List.length tr1) (osascript_argv title body) with
         | inl e => inl e
         | inr _ => inr tt
         end,
         (tr1 ++ [EvRun (osascript_argv title body)])%list)
    end /\
  emits is_stdout (send_terminal_notification title body).
Proof.
  split; [|apply send_terminal_notification_stdout].
  unfold send_notification, bind at 1.
  destruct (send_terminal_notification title body w tr) as [[e|[]] tr1]; [reflexivity|].
  unfold send_macos_notification, bind, subprocess_run_capture, ret.
  destruct (subprocess_run w (List.length tr1) (osascript_argv title body));
    reflexivity.
Qed.

(** C4, as the specification has it, fails: without [osascript] the call
    raises [FileNotFoundError] to its caller, and with standard output
    closed it raises after the first write, the helper never started. *)
Lemma send_notification_raises :
  send_notification "PagerDuty Auto-Ack" "db: disk full" helper_missing_world [] =
    (inl (Exception "FileNotFoundError"
            "[Errno 2] No such file or directory: 'osascript'"),
     [EvWrite (ESC ++ "]9;PagerDuty Auto-Ack: db: disk full" ++ BEL);
      EvFlush;
      EvWrite (ESC ++ "]99;i=1:d=0;db: disk full" ++ ESC ++ "\");
      EvFlush;
      EvRun (osascript_argv "PagerDuty Auto-Ack" "db: disk full")]) /\
  send_notification "PagerDuty Auto-Ack" "db: disk full" closed_stdout_world [] =
    (inl (Exception "ValueError" "I/O operation on closed file."),
     [EvWrite (ESC ++ "]9;PagerDuty Auto-Ack: db: disk full" ++ BEL)]).
Proof. split; reflexivity. Qed.

(** ** Binary floating point

    Rounding keeps the order, and keeps a value that has 53 bits of
    significand as it is. *)

Section Binary64.

Local Open Scope Q_scope.

Lemma pow2_pos e : 0 < pow2 e.
Proof. apply Qpower_0_lt. reflexivity. Qed.

Lemma pow2_add a b : pow2 (a + b) == pow2 a * pow2 b.
Proof. apply Qpower_plus. discriminate. Qed.

Lemma pow2_lt a b : (a < b)%Z -> pow2 a < pow2 b.
Proof. intros H. apply Qpower_lt_compat_l; [exact H | reflexivity]. Qed.

Lemma pow2_le a b : (a <= b)%Z -> pow2 a <= pow2 b.
Proof. intros H. apply Qpower_le_compat_l; [exact H | discriminate]. Qed.

Lemma pow2_lt_inv a b : pow2 a < pow2 b -> (a < b)%Z.
Proof. intros H. apply (Qpower_lt_compat_l_inv 2); [exact H | reflexivity]. Qed.

Lemma pow2_Z e : (0 <= e)%Z -> pow2 e == inject_Z (2 ^ e).
Proof. intros H. unfold pow2. rewrite Zpower_Qpower by exact H. reflexivity. Qed.

Lemma pow2_succ e : pow2 (e + 1) == 2 * pow2 e.
Proof. rewrite pow2_add. change (pow2 1) with 2. ring. Qed.

(** rounding to an integer *)
Lemma round_half_even_floor x :
  round_half_even x = Qfloor x \/ round_half_even x = (Qfloor x + 1)%Z.
Proof.
  unfold round_half_even.
  destruct (x - inject_Z (Qfloor x) ?= 1 # 2); auto.
  destruct (Z.even (Qfloor x)); auto.
Qed.

Lemma round_half_even_mono x y : x <= y -> (round_half_even x <= round_half_even y)%Z.
Proof.
  intros Hxy. pose proof (Qfloor_resp_le _ _ Hxy) as Hf.
  destruct (Z.eq_dec (Qfloor x) (Qfloor y)) as [E|NE].
  - unfold round_half_even. rewrite <- E.
    destruct (Qcompare_spec (x - inject_Z (Qfloor x)) (1 # 2)) as [Hx|Hx|Hx];
    destruct (Qcompare_spec (y - inject_Z (Qfloor x)) (1 # 2)) as [Hy|Hy|Hy];
    try destruct (Z.even (Qfloor x)); try lia; exfalso; lra.
  - destruct (round_half_even_floor x) as [-> | ->];
    destruct (round_half_even_floor y) as [-> | ->]; lia.
Qed.

Lemma round_half_even_Z x z : x == inject_Z z -> round_half_even x = z.
Proof.
  intros H. unfold round_half_even.
  assert (Hf : Qfloor x = z) by (rewrite H; apply Qfloor_Z).
  rewrite Hf.
  destruct (Qcompare_spec (x - inject_Z z) (1 # 2)) as [Hx|Hx|Hx]; try reflexivity;
    exfalso; lra.
Qed.

Lemma round_half_even_below x b : x < inject_Z b -> (round_half_even x <= b)%Z.
Proof.
  intros H. assert (Qfloor x < b)%Z.
  { apply Z.lt_nge. intros Hge. pose proof (Qfloor_le x) as Hfl.
    rewrite Zle_Qle in Hge. lra. }
  destruct (round_half_even_floor x) as [-> | ->]; lia.
Qed.

Lemma round_half_even_above x b : inject_Z b <= x -> (b <= round_half_even x)%Z.
Proof.
  intros H. pose proof (Qfloor_resp_le _ _ H) as Hf. rewrite Qfloor_Z in Hf.
  destruct (round_half_even_floor x) as [-> | ->]; lia.
Qed.

(** the binary exponent *)
Lemma ilog2_spec x : 0 < x -> pow2 (ilog2 x) <= x /\ x < pow2 (ilog2 x + 1).
Proof.
  destruct x as [n d]. intros Hpos.
  assert (Hn : (0 < n)%Z) by (unfold Qlt in Hpos; simpl in Hpos; lia).
  unfold ilog2. cbn [Qnum Qden].
  set (a := Z.log2 n). set (b := Z.log2 (Z.pos d)).
  assert (Ha0 : (0 <= a)%Z) by apply Z.log2_nonneg.
  assert (Hb0 : (0 <= b)%Z) by apply Z.log2_nonneg.
  destruct (Z.log2_spec n Hn) as [Ha1 Ha2]. fold a in Ha1, Ha2.
  destruct (Z.log2_spec (Z.pos d) (Pos2Z.is_pos d)) as [Hb1 Hb2]. fold b in Hb1, Hb2.
  rewrite Zle_Qle in Ha1, Hb1. rewrite Zlt_Qlt in Ha2, Hb2.
  rewrite <- !pow2_Z in Ha1, Ha2, Hb1, Hb2 by lia.
  replace (Z.succ a) with (a + 1)%Z in Ha2 by lia.
  replace (Z.succ b) with (b + 1)%Z in Hb2 by lia.
  rewrite pow2_succ in Ha2, Hb2.
  assert (HK : pow2 (a - b) * pow2 b == pow2 a).
  { rewrite <- pow2_add. replace (a - b + b)%Z with a by lia. reflexivity. }
  pose proof (pow2_pos (a - b)) as HKpos. pose proof (pow2_pos b) as HBpos.
  assert (Hx : (n # d) * inject_Z (Z.pos d) == inject_Z n).
  { rewrite (Qmake_Qdiv n d). field. discriminate. }
  assert (Hd : 0 < inject_Z (Z.pos d)) by reflexivity.
  set (x := n # d) in *. set (dd := inject_Z (Z.pos d)) in *.
  set (nn := inject_Z n) in *. set (K := pow2 (a - b)) in *.
  set (A := pow2 a) in *. set (B := pow2 b) in *.
  destruct (Qle_bool K x) eqn:Htest.
  - apply Qle_bool_iff in Htest. split; [exact Htest|].
    rewrite pow2_succ. fold K. nra.
  - assert (Hlt : x < K).
    { apply Qnot_le_lt. intros Hle. apply Qle_bool_iff in Hle. congruence. }
    split.
    + assert (Hhalf : 2 * pow2 (a - b - 1) == K).
      { unfold K. replace (a - b)%Z with ((a - b - 1) + 1)%Z at 2 by lia.
        rewrite pow2_succ. reflexivity. }
      pose proof (pow2_pos (a - b - 1)). nra.
    + replace (a - b - 1 + 1)%Z with (a - b)%Z by lia. exact Hlt.
Qed.

Lemma ilog2_mono x y : 0 < x -> x <= y -> (ilog2 x <= ilog2 y)%Z.
Proof.
  intros Hx Hxy. assert (Hy : 0 < y) by lra.
  destruct (ilog2_spec x Hx) as [H1 _]. destruct (ilog2_spec y Hy) as [_ H2].
  assert (H : pow2 (ilog2 x) < pow2 (ilog2 y + 1)) by lra.
  apply pow2_lt_inv in H. lia.
Qed.

Lemma binary64_pos_nonneg x : 0 < x -> 0 <= binary64_pos x.
Proof.
  intros Hx. unfold binary64_pos.
  pose proof (pow2_pos (Z.max (ilog2 x - 52) (-1074))) as Hp.
  apply Qmult_le_0_compat; [|lra].
  change 0 with (inject_Z 0). rewrite <- Zle_Qle.
  apply round_half_even_above. change (inject_Z 0) with 0.
  apply Qle_shift_div_l; [exact Hp | lra].
Qed.

Lemma binary64_pos_mono x y : 0 < x -> x <= y -> binary64_pos x <= binary64_pos y.
Proof.
  intros Hx Hxy. assert (Hy : 0 < y) by lra.
  pose proof (ilog2_mono x y Hx Hxy) as Hlog.
  unfold binary64_pos.
  set (ex := Z.max (ilog2 x - 52) (-1074)). set (ey := Z.max (ilog2 y - 52) (-1074)).
  pose proof (pow2_pos ex) as Hpx. pose proof (pow2_pos ey) as Hpy.
  destruct (Z.eq_dec ex ey) as [E|NE].
  - rewrite <- E. apply Qmult_le_compat_r; [|lra].
    rewrite <- Zle_Qle. apply round_half_even_mono.
    apply Qmult_le_compat_r; [exact Hxy|].
    apply Qlt_le_weak, Qinv_lt_0_compat. exact Hpx.
  - assert (Hlt : (ex + 1 <= ey)%Z) by lia.
    assert (Hey : ey = (ilog2 y - 52)%Z) by lia.
    destruct (ilog2_spec x Hx) as [_ Hx2]. destruct (ilog2_spec y Hy) as [Hy1 _].
    (* x rounds to at most 2^53 * 2^ex *)
    assert (H1 : (round_half_even (x / pow2 ex) <= 2 ^ 53)%Z).
    { apply round_half_even_below. rewrite <- pow2_Z by lia.
      apply Qlt_shift_div_r; [exact Hpx|]. rewrite <- pow2_add.
      eapply Qlt_le_trans; [exact Hx2|]. apply pow2_le. lia. }
    assert (H2 : (2 ^ 52 <= round_half_even (y / pow2 ey))%Z).
    { apply round_half_even_above. rewrite <- pow2_Z by lia.
      apply Qle_shift_div_l; [exact Hpy|]. rewrite <- pow2_add.
      eapply Qle_trans; [|exact Hy1]. apply pow2_le. lia. }
    rewrite Zle_Qle in H1, H2. rewrite <- pow2_Z in H1, H2 by lia.
    assert (Hstep : pow2 53 * pow2 ex <= pow2 52 * pow2 ey).
    { rewrite <- !pow2_add. apply pow2_le. lia. }
    apply Qle_trans with (pow2 53 * pow2 ex).
    + apply Qmult_le_compat_r; [exact H1 | lra].
    + apply Qle_trans with (pow2 52 * pow2 ey); [exact Hstep|].
      apply Qmult_le_compat_r; [exact H2 | lra].
Qed.

Lemma binary64_pos_proper x y : 0 < x -> y == x -> binary64_pos y == binary64_pos x.
Proof.
  intros Hx E. assert (Hy : 0 < y) by lra.
  apply Qle_antisym; apply binary64_pos_mono; lra.
Qed.

Lemma binary64_mono x y : x <= y -> binary64 x <= binary64 y.
Proof.
  intros Hxy. unfold binary64.
  destruct (Qcompare_spec x 0) as [Hx|Hx|Hx];
  destruct (Qcompare_spec y 0) as [Hy|Hy|Hy]; try (exfalso; lra).
  - lra.
  - apply binary64_pos_nonneg. exact Hy.
  - assert (0 <= binary64_pos (- x)) by (apply binary64_pos_nonneg; lra). lra.
  - assert (binary64_pos (- y) <= binary64_pos (- x))
      by (apply binary64_pos_mono; lra). lra.
  - assert (0 <= binary64_pos (- x)) by (apply binary64_pos_nonneg; lra).
    assert (0 <= binary64_pos y) by (apply binary64_pos_nonneg; lra). lra.
  - apply binary64_pos_mono; assumption.
Qed.


(** values that binary64 holds exactly *)
Lemma binary64_pos_exact M s :
  (0 < M < 2 ^ 53)%Z -> (-1074 <= s)%Z ->
  binary64_pos (inject_Z M * pow2 s) == inject_Z M * pow2 s.
Proof.
  intros [HM0 HM] Hs.
  pose proof (pow2_pos s) as Hps.
  assert (HMq : 0 < inject_Z M) by (change 0 with (inject_Z 0); rewrite <- Zlt_Qlt; exact HM0).
  assert (Hx : 0 < inject_Z M * pow2 s) by (apply Qmult_lt_0_compat; assumption).
  unfold binary64_pos. set (x := inject_Z M * pow2 s) in *.
  set (e := Z.max (ilog2 x - 52) (-1074)).
  assert (He : (e <= s)%Z).
  { destruct (ilog2_spec x Hx) as [H1 _].
    assert (H2 : x < pow2 (s + 53)).
    { unfold x. rewrite pow2_add, (pow2_Z 53) by lia.
      rewrite Zlt_Qlt in HM. nra. }
    assert (H3 : pow2 (ilog2 x) < pow2 (s + 53)) by lra.
    apply pow2_lt_inv in H3. lia. }
  pose proof (pow2_pos e) as Hpe.
  assert (Hscaled : x / pow2 e == inject_Z (M * 2 ^ (s - e))).
  { rewrite inject_Z_mult, <- pow2_Z by lia. unfold x.
    replace s with ((s - e) + e)%Z at 1 by lia. rewrite pow2_add.
    field. lra. }
  rewrite (round_half_even_Z _ _ Hscaled).
  rewrite inject_Z_mult, <- pow2_Z by lia. unfold x.
  replace s with ((s - e) + e)%Z at 2 by lia. rewrite pow2_add. ring.
Qed.

Lemma binary64_exact M s :
  (- 2 ^ 53 < M < 2 ^ 53)%Z -> (-1074 <= s)%Z ->
  binary64 (inject_Z M * pow2 s) == inject_Z M * pow2 s.
Proof.
  intros HM Hs. pose proof (pow2_pos s) as Hps. unfold binary64.
  destruct (Qcompare_spec (inject_Z M * pow2 s) 0) as [H|H|H].
  - symmetry. exact H.
  - assert (HM0 : (M < 0)%Z).
    { apply Z.lt_nge. intros Hge. rewrite Zle_Qle in Hge. change (inject_Z 0) with 0 in Hge. nra. }
    assert (E : - (inject_Z M * pow2 s) == inject_Z (- M) * pow2 s)
      by (rewrite inject_Z_opp; ring).
    assert (Hpos : 0 < inject_Z (- M) * pow2 s) by lra.
    rewrite (binary64_pos_proper _ _ Hpos E).
    rewrite binary64_pos_exact by lia. rewrite inject_Z_opp. ring.
  - assert (HM0 : (0 < M)%Z).
    { apply Z.lt_nge. intros Hge. rewrite Zle_Qle in Hge. change (inject_Z 0) with 0 in Hge. nra. }
    apply binary64_pos_exact; lia.
Qed.

End Binary64.

#[global] Instance binary64_proper : Proper (Qeq ==> Qeq) binary64.
Proof.
  intros x y H. apply Qle_antisym; apply binary64_mono; rewrite H; apply Qle_refl.
Qed.

(** ** The age evaluator *)

Lemma get_incident_age_minutes_raises inc w tr e tr1 :
  get_incident_age_minutes inc w tr = (inl e, tr1) ->
  tr1 = tr \/ tr1 = (tr ++ [EvUtcNow])%list.
Proof.
  unfold get_incident_age_minutes, bind, ask, lift, datetime_now_utc, ret.
  destruct (subscript inc "created_at") as [e1|text]; [intros H; inversion H; auto|].
  destruct (parse_created_at w text) as [e2|created]; [intros H; inversion H; auto|].
  destruct (datetime_sub _ created) as [e3|delta]; intros H; inversion H; auto.
Qed.

Lemma get_incident_age_minutes_returns inc w tr age tr1 :
  get_incident_age_minutes inc w tr = (inr age, tr1) ->
  tr1 = (tr ++ [EvUtcNow])%list /\
  exists text created,
    subscript inc "created_at" = inr text /\
    parse_created_at w text = inr created /\
    aware created = true /\
    age = minutes_of_micros (utcnow w (List.length tr) - instant created).
Proof.
  unfold get_incident_age_minutes, bind, ask, lift, datetime_now_utc, ret.
  destruct (subscript inc "created_at") as [e1|text] eqn:Htext; [discriminate|].
  destruct (parse_created_at w text) as [e2|created] eqn:Hcreated; [discriminate|].
  unfold datetime_sub. simpl instant.
  destruct (aware created) eqn:Haware; [|discriminate].
  intros H. inversion H; subst. split; [reflexivity|].
  exists text, created. repeat split; assumption || reflexivity.
Qed.

Section Ages.

Local Open Scope Q_scope.

Ltac by_constants :=
  unfold Qdiv in *;
  change (/ 1000000) with (1 # 1000000) in *;
  change (/ 60) with (1 # 60) in *;
  lra.


Lemma micros_as_fraction micros :
  micros # 1000000 == inject_Z micros / 1000000.
Proof. apply Qmake_Qdiv. Qed.

Lemma minutes_of_micros_mono m1 m2 :
  (m1 <= m2)%Z -> minutes_of_micros m1 <= minutes_of_micros m2.
Proof.
  intros H. unfold minutes_of_micros, total_seconds. apply binary64_mono.
  assert (H1 : binary64 (m1 # 1000000) <= binary64 (m2 # 1000000)).
  { apply binary64_mono. unfold Qle. simpl. lia. }
  apply Qmult_le_compat_r; [exact H1 | discriminate].
Qed.



Lemma minutes_of_micros_negative micros :
  (micros < 0)%Z -> minutes_of_micros micros < 0.
Proof.
  intros Hneg. unfold minutes_of_micros, total_seconds.
  assert (P20 : inject_Z (-1) * pow2 (-20) == - (1 # 1048576)) by reflexivity.
  assert (P26 : inject_Z (-1) * pow2 (-26) == - (1 # 67108864)) by reflexivity.
  assert (Hm : inject_Z micros <= - (1)).
  { change (- (1)) with (inject_Z (-1)). rewrite <- Zle_Qle. lia. }
  set (seconds := binary64 (micros # 1000000)).
  assert (H1 : seconds <= - (1 # 1048576)).
  { rewrite <- P20, <- (binary64_exact (-1) (-20)) by lia.
    apply binary64_mono. rewrite P20, micros_as_fraction. by_constants. }
  assert (H2 : binary64 (seconds / 60) <= - (1 # 67108864)).
  { rewrite <- P26, <- (binary64_exact (-1) (-26)) by lia.
    apply binary64_mono. rewrite P26. by_constants. }
  lra.
Qed.

End Ages.


Lemma old_enough_negative_age micros N :
  micros < 0 -> 0 <= N -> old_enough (minutes_of_micros micros) N = false.
Proof.
  intros Hneg HN. unfold old_enough.
  destruct (Qle_bool (inject_Z N) (minutes_of_micros micros)) eqn:Hle; [|reflexivity].
  apply Qle_bool_iff in Hle. exfalso.
  pose proof (minutes_of_micros_negative micros Hneg) as Hage.
  rewrite Zle_Qle in HN. change (inject_Z 0) with 0%Q in HN. lra.
Qed.


(** ** One pass over the triggered incidents *)

Lemma announce_emits inc age : emits is_output (announce inc age).
Proof.
  unfold announce.
  repeat first
    [ apply emits_lift | apply emits_ask | apply datetime_now_emits
    | apply print_emits | apply send_notification_emits
    | apply emits_bind; [ | intro ] ].
Qed.


Lemma output_is_no_clock_read outs :
  Forall is_output outs -> filter is_utcnow outs = [].
Proof.
  induction 1 as [|ev outs Hev _ IH]; [reflexivity|].
  simpl. rewrite IH. destruct ev; simpl in *; try reflexivity; contradiction.
Qed.


Lemma clock_reads_app tr evs :
  clock_reads (tr ++ evs)%list = (clock_reads tr + clock_reads evs)%nat.
Proof. unfold clock_reads. rewrite filter_app. apply length_app. Qed.

Lemma with_status_kept status incidents kept :
  with_status status incidents = inr kept ->
  forall i, In i kept ->
    In i incidents /\ subscript i "status" = inr (VStr status).
Proof.
  revert kept. induction incidents as [|x rest IH]; intros kept H i Hi.
  - inversion H; subst. contradiction.
  - simpl in H. unfold rbind in H.
    destruct (subscript x "status") as [e|s] eqn:Hs; [discriminate|].
    destruct (with_status status rest) as [e|kept'] eqn:Hrest; [discriminate|].
    inversion H; subst; clear H.
    destruct (eq_str s status) eqn:Heq.
    + destruct Hi as [<- | Hi].
      * split; [left; reflexivity|].
        destruct s; try discriminate. simpl in Heq.
        apply String.eqb_eq in Heq. subst. exact Hs.
      * destruct (IH kept' eq_refl i Hi). split; [right|]; assumption.
    + destruct (IH kept' eq_refl i Hi). split; [right|]; assumption.
Qed.

Section Pass.

Variables (k : string) (N : Z).

Lemma process_incident_run inc w tr :
  process_incident k N inc w tr =
  match get_incident_age_minutes inc w tr with
  | (inl e, tr1) => (inl e, tr1)
  | (inr age, tr1) =>
      if old_enough age N then
        match subscript inc "id" with
        | inl e => (inl e, tr1)
        | inr id =>
            match acknowledge_incident k id w tr1 with
            | (inl e, tr2) => (inl e, tr2)
            | (inr true, tr2) => announce inc age w tr2
            | (inr false, tr2) => (inr tt, tr2)
            end
        end
      else (inr tt, tr1)
  end.
Proof.
  unfold process_incident, bind at 1.
  destruct (get_incident_age_minutes inc w tr) as [[e|age] tr1]; [reflexivity|].
  destruct (old_enough age N); [|reflexivity].
  unfold bind at 1, lift.
  destruct (subscript inc "id") as [e|id]; [reflexivity|].
  unfold bind at 1.
  destruct (acknowledge_incident k id w tr1) as [[e|[|]] tr2]; reflexivity.
Qed.

(** What one incident of the loop adds to the trace, whatever its outcome:
    nothing, the clock reading alone, or the clock reading, one update
    request for this incident, and reporting. *)
Lemma process_incident_events inc w tr r tr' :
  process_incident k N inc w tr = (r, tr') ->
  (tr' = tr /\ exists e, r = inl e) \/
  (tr' = (tr ++ [EvUtcNow])%list /\
   ((exists e, r = inl e) \/
    (r = inr tt /\ exists age,
       get_incident_age_minutes inc w tr = (inr age, (tr ++ [EvUtcNow])%list) /\
       old_enough age N = false))) \/
  (exists age id outs,
     get_incident_age_minutes inc w tr = (inr age, (tr ++ [EvUtcNow])%list) /\
     old_enough age N = true /\
     subscript inc "id" = inr id /\
     tr' = (tr ++ EvUtcNow :: EvHttp (ack_request w k id) :: outs)%list /\
     Forall is_output outs).
Proof.
  rewrite process_incident_run.
  destruct (get_incident_age_minutes inc w tr) as [[e|age] tr1] eqn:Hage.
  - intros H; inversion H; subst.
    destruct (get_incident_age_minutes_raises _ _ _ _ _ Hage) as [->| ->].
    + left. eauto.
    + right; left. eauto.
  - destruct (get_incident_age_minutes_returns _ _ _ _ _ Hage) as [-> _].
    destruct (old_enough age N) eqn:Hold.
    + destruct (subscript inc "id") as [e|id] eqn:Hid.
      * intros H; inversion H; subst. right; left. eauto.
      * rewrite acknowledge_incident_run.
        destruct (http w _ (ack_request w k id)) as [e|resp].
        { intros H; inversion H; subst. right; right.
          exists age, id, []. rewrite <- app_assoc. repeat split; auto. }
        destruct (status_code resp =? 200).
        { intros H. right; right.
          destruct (announce_emits inc age w
                      ((tr ++ [EvUtcNow]) ++ [EvHttp (ack_request w k id)])%list)
            as [outs [E Houts]].
          rewrite H in E. simpl in E. subst tr'.
          exists age, id, outs. rewrite <- !app_assoc. repeat split; auto. }
        { intros H; inversion H; subst. right; right.
          exists age, id, []. rewrite <- app_assoc. repeat split; auto. }
    + intros H; inversion H; subst. right; left. split; [reflexivity|].
      right. split; [reflexivity|]. exists age. auto.
Qed.

(** A pass that comes to its end has, for each incident, computed the age
    and either left it alone or sent one update for it. *)
Lemma process_incident_returns inc w tr tr' :
  process_incident k N inc w tr = (inr tt, tr') ->
  exists age,
    get_incident_age_minutes inc w tr = (inr age, (tr ++ [EvUtcNow])%list) /\
    ((old_enough age N = false /\ tr' = (tr ++ [EvUtcNow])%list) \/
     (old_enough age N = true /\
      exists id outs,
        subscript inc "id" = inr id /\
        tr' = (tr ++ EvUtcNow :: EvHttp (ack_request w k id) :: outs)%list /\
        Forall is_output outs)).
Proof.
  intros H. destruct (process_incident_events _ _ _ _ _ H)
    as [[_ [e He]] | [[-> [[e He] | [_ [age [Hage Hold]]]]] | Hack]];
    try discriminate.
  - exists age. split; [exact Hage|]. left. auto.
  - destruct Hack as [age [id [outs [Hage [Hold [Hid [-> Houts]]]]]]].
    exists age. split; [exact Hage|]. right. split; [exact Hold|].
    exists id, outs. auto.
Qed.

(** Every request that one incident of the loop sends is the update for
    that incident, sent right after the clock reading of its age, which
    was found to reach the interval. *)
Lemma process_incident_requests inc w tr r tr' :
  process_incident k N inc w tr = (r, tr') ->
  exists evs, tr' = (tr ++ evs)%list /\
    forall rq, In (EvHttp rq) evs ->
      exists age id outs,
        get_incident_age_minutes inc w tr = (inr age, (tr ++ [EvUtcNow])%list) /\
        old_enough age N = true /\
        subscript inc "id" = inr id /\
        rq = ack_request w k id /\
        evs = EvUtcNow :: EvHttp rq :: outs.
Proof.
  intros H. destruct (process_incident_events _ _ _ _ _ H)
    as [[-> _] | [[-> _] | [age [id [outs [Hage [Hold [Hid [-> Houts]]]]]]]]].
  - exists []. split; [symmetry; apply app_nil_r|]. intros rq [].
  - exists [EvUtcNow]. split; [reflexivity|].
    intros rq [Hrq|[]]. discriminate.
  - eexists. split; [reflexivity|].
    intros rq [Hrq|[Hrq|Hrq]]; [discriminate| |].
    + inversion Hrq; subst. exists age, id, outs. auto.
    + rewrite Forall_forall in Houts. destruct (Houts _ Hrq).
Qed.

Lemma process_incident_one_clock_read inc w tr r tr' :
  process_incident k N inc w tr = (r, tr') ->
  exists evs, tr' = (tr ++ evs)%list /\ (clock_reads evs <= 1)%nat.
Proof.
  intros H. destruct (process_incident_events _ _ _ _ _ H)
    as [[-> _] | [[-> _] | [age [id [outs [_ [_ [_ [-> Houts]]]]]]]]].
  - exists []. split; [symmetry; apply app_nil_r | apply Nat.le_0_1].
  - exists [EvUtcNow]. split; [reflexivity | apply Nat.le_refl].
  - eexists. split; [reflexivity|].
    unfold clock_reads. simpl. rewrite (output_is_no_clock_read _ Houts).
    apply Nat.le_refl.
Qed.

Lemma process_incident_clock_reads inc w tr tr' :
  process_incident k N inc w tr = (inr tt, tr') ->
  clock_reads tr' = S (clock_reads tr).
Proof.
  intros H. destruct (process_incident_returns _ _ _ _ H)
    as [age [_ [[_ ->] | [_ [id [outs [_ [-> Houts]]]]]]]];
    rewrite clock_reads_app, <- Nat.add_1_r; f_equal.
  unfold clock_reads. simpl. rewrite (output_is_no_clock_read _ Houts).
  reflexivity.
Qed.

Lemma process_incident_emits inc : emits any_event (process_incident k N inc).
Proof.
  intros w tr.
  destruct (process_incident k N inc w tr) as [r tr'] eqn:H.
  destruct (process_incident_requests _ _ _ _ _ H) as [evs [-> _]].
  exists evs. split; [reflexivity|]. apply Forall_forall. intros; exact I.
Qed.

(** Every request of a pass is the update for an incident of the list,
    sent right after the clock reading of that incident's age. *)
Lemma for_each_requests w l : forall tr r tr',
  for_each (process_incident k N) l w tr = (r, tr') ->
  exists evs, tr' = (tr ++ evs)%list /\
    forall rq, In (EvHttp rq) evs ->
      exists inc pre age id post,
        In inc l /\
        get_incident_age_minutes inc w (tr ++ pre)%list
          = (inr age, ((tr ++ pre) ++ [EvUtcNow])%list) /\
        old_enough age N = true /\
        subscript inc "id" = inr id /\
        rq = ack_request w k id /\
        evs = (pre ++ EvUtcNow :: EvHttp rq :: post)%list.
Proof.
  induction l as [|x l IH]; intros tr r tr' H.
  - inversion H; subst. exists []. split; [symmetry; apply app_nil_r|].
    intros rq [].
  - rewrite for_each_cons in H.
    destruct (process_incident k N x w tr) as [[e|[]] tr1] eqn:Hx.
    + inversion H; subst.
      destruct (process_incident_requests _ _ _ _ _ Hx) as [evs [-> Hevs]].
      exists evs. split; [reflexivity|]. intros rq Hrq.
      destruct (Hevs rq Hrq) as [age [id [outs [Hage [Hold [Hid [Hrq' Hshape]]]]]]].
      exists x, [], age, id, outs. rewrite app_nil_r.
      repeat split; auto. left; reflexivity.
    + destruct (process_incident_requests _ _ _ _ _ Hx) as [evs [-> Hevs]].
      destruct (IH _ _ _ H) as [evs' [-> Hevs']].
      exists (evs ++ evs')%list. split; [symmetry; apply app_assoc|].
      intros rq Hrq. apply in_app_or in Hrq. destruct Hrq as [Hrq|Hrq].
      * destruct (Hevs rq Hrq) as [age [id [outs [Hage [Hold [Hid [Hrq' Hshape]]]]]]].
        exists x, [], age, id, (outs ++ evs')%list. rewrite app_nil_r.
        repeat split; auto; [left; reflexivity|].
        rewrite Hshape. reflexivity.
      * destruct (Hevs' rq Hrq)
          as [inc [pre [age [id [post [Hin [Hage [Hold [Hid [Hrq' Hshape]]]]]]]]]].
        exists inc, (evs ++ pre)%list, age, id, post. rewrite app_assoc.
        repeat split; auto; [right; exact Hin|].
        rewrite Hshape. apply app_assoc.
Qed.

End Pass.






(** C3. Whatever a cycle adds to the trace, every update request among
    these new events is for an incident that this cycle's own fetch
    returned with status "triggered": its age was computed during this
    cycle, after the fetch, and found to reach the interval, and the
    update was sent right after the clock reading of that computation.
    So an update whose request is not that of any triggered record of the
    current fetch (a record with another status, or one known from an
    earlier fetch only) is not sent in this cycle; in particular none is
    sent when the fetch fails. *)
Theorem acknowledged_only_when_triggered k u N w tr r tr' :
  cycle k u N w tr = (r, tr') ->
  exists evs,
    tr' = (tr ++ evs)%list /\
    (forall rq, In (EvHttp rq) evs -> meth rq = PUT ->
       exists incidents tr0 inc later after age id,
         get_incidents k u w tr = (inr incidents, tr0) /\
         In inc incidents /\
         subscript inc "status" = inr (VStr "triggered") /\
         get_incident_age_minutes inc w (tr0 ++ later)%list
           = (inr age, ((tr0 ++ later) ++ [EvUtcNow])%list) /\
         old_enough age N = true /\
         subscript inc "id" = inr id /\
         rq = ack_request w k id /\
         tr' = (tr0 ++ later ++ EvUtcNow :: EvHttp rq :: after)%list) /\
    (forall id,
       (forall incidents tr0 inc oid,
          get_incidents k u w tr = (inr incidents, tr0) ->
          In inc incidents ->
          subscript inc "status" = inr (VStr "triggered") ->
          subscript inc "id" = inr oid ->
          ack_request w k oid <> ack_request w k id) ->
       ~ In (EvHttp (ack_request w k id)) evs).
Proof.
  intros Hcycle.
  assert (Hmain : exists evs,
            tr' = (tr ++ evs)%list /\
            forall rq, In (EvHttp rq) evs -> meth rq = PUT ->
              exists incidents tr0 inc later after age id,
                get_incidents k u w tr = (inr incidents, tr0) /\
                In inc incidents /\
                subscript inc "status" = inr (VStr "triggered") /\
                get_incident_age_minutes inc w (tr0 ++ later)%list
                  = (inr age, ((tr0 ++ later) ++ [EvUtcNow])%list) /\
                old_enough age N = true /\
                subscript inc "id" = inr id /\
                rq = ack_request w k id /\
                tr' = (tr0 ++ later ++ EvUtcNow :: EvHttp rq :: after)%list).
  { unfold cycle in Hcycle.
    destruct (get_incidents_no_put k u w tr) as [evs0 [E0 Hevs0]].
    assert (Hfetch : forall rq, In (EvHttp rq) evs0 -> meth rq = PUT -> False).
    { intros rq Hx Hput. rewrite Forall_forall in Hevs0. specialize (Hevs0 _ Hx).
      unfold not_put in Hevs0. simpl in Hevs0. rewrite Hput in Hevs0.
      discriminate. }
    destruct (get_incidents k u w tr) as [[e|incidents] tr0] eqn:Hget;
      simpl in E0; subst tr0.
    - rewrite (bind_inl _ _ _ _ _ _ Hget) in Hcycle. inversion Hcycle; subst.
      exists evs0. split; [reflexivity|].
      intros rq Hin Hput. destruct (Hfetch rq Hin Hput).
    - rewrite (bind_inr _ _ _ _ _ _ Hget) in Hcycle.
      unfold bind at 1, lift in Hcycle.
      destruct (with_status "triggered" incidents) as [e|triggered] eqn:Hkept.
      + inversion Hcycle; subst. exists evs0. split; [reflexivity|].
        intros rq Hin Hput. destruct (Hfetch rq Hin Hput).
      + destruct (for_each (process_incident k N) triggered w (tr ++ evs0)%list)
          as [r1 tr1] eqn:Hloop.
        destruct (for_each_requests _ _ _ _ _ _ _ Hloop) as [evs [-> Hevs]].
        assert (Htail : exists tail,
                  tr' = (((tr ++ evs0) ++ evs) ++ tail)%list /\
                  forall rq, ~ In (EvHttp rq) tail).
        { unfold bind in Hcycle. rewrite Hloop in Hcycle.
          destruct r1 as [e|[]].
          - inversion Hcycle; subst. exists []. split; [symmetry; apply app_nil_r|].
            intros rq [].
          - assert (Hs : tr' = snd (time_sleep (N * 60) w ((tr ++ evs0) ++ evs)%list))
              by (rewrite Hcycle; reflexivity).
            destruct (time_sleep_events (N * 60) w ((tr ++ evs0) ++ evs)%list) as [E|E];
              rewrite E in Hs; subst tr'.
            + exists []. split; [symmetry; apply app_nil_r|]. intros rq [].
            + exists [EvSleep (N * 60)]. split; [reflexivity|].
              intros rq [Hrq|[]]. discriminate. }
        destruct Htail as [tail [-> Htail]].
        exists (evs0 ++ evs ++ tail)%list.
        split; [rewrite <- !app_assoc; reflexivity|].
        intros rq Hin Hput.
        apply in_app_or in Hin. destruct Hin as [Hin|Hin];
          [destruct (Hfetch rq Hin Hput)|].
        apply in_app_or in Hin. destruct Hin as [Hin|Hin];
          [|destruct (Htail rq Hin)].
        destruct (Hevs rq Hin)
          as [inc [pre [age [id [post [Hinc [Hage [Hold [Hid [Hrq Hshape]]]]]]]]]].
        destruct (with_status_kept _ _ _ Hkept inc Hinc) as [Hfetched Hstatus].
        exists incidents, (tr ++ evs0)%list, inc, pre, (post ++ tail)%list, age, id.
        repeat split; auto.
        rewrite Hshape, <- !app_assoc. reflexivity. }
  destruct Hmain as [evs [E Hevs]].
  exists evs. split; [exact E|]. split; [exact Hevs|].
  intros id Hdistinct Hin.
  destruct (Hevs _ Hin eq_refl)
    as [incidents [tr0 [inc [later [after [age [oid
         [Hget [Hinc [Hstatus [_ [_ [Hid [Hrq _]]]]]]]]]]]]]].
  apply (Hdistinct incidents tr0 inc oid Hget Hinc Hstatus Hid).
  symmetry. exact Hrq.
Qed.

Lemma acknowledged_only_when_triggered_witness :
  exists evs,
    snd (cycle "key" (VStr "PUSER") 3 scenario_world []) = ([] ++ evs)%list /\
    (forall rq, In (EvHttp rq) evs -> meth rq = PUT ->
       exists incidents tr0 inc later after age id,
         get_incidents "key" (VStr "PUSER") scenario_world [] = (inr incidents, tr0) /\
         In inc incidents /\
         subscript inc "status" = inr (VStr "triggered") /\
         get_incident_age_minutes inc scenario_world (tr0 ++ later)%list
           = (inr age, ((tr0 ++ later) ++ [EvUtcNow])%list) /\
         old_enough age 3 = true /\
         subscript inc "id" = inr id /\
         rq = ack_request scenario_world "key" id /\
         snd (cycle "key" (VStr "PUSER") 3 scenario_world [])
         = (tr0 ++ later ++ EvUtcNow :: EvHttp rq :: after)%list) /\
    (forall id,
       (forall incidents tr0 inc oid,
          get_incidents "key" (VStr "PUSER") scenario_world [] = (inr incidents, tr0) ->
          In inc incidents ->
          subscript inc "status" = inr (VStr "triggered") ->
          subscript inc "id" = inr oid ->
          ack_request scenario_world "key" oid <> ack_request scenario_world "key" id) ->
       ~ In (EvHttp (ack_request scenario_world "key" id)) evs).
Proof.
  apply (acknowledged_only_when_triggered "key" (VStr "PUSER") 3 scenario_world []
           (fst (cycle "key" (VStr "PUSER") 3 scenario_world []))
           (snd (cycle "key" (VStr "PUSER") 3 scenario_world []))).
  vm_compute. reflexivity.
Defined.

(** C5, as the program has it. The clock is read inside
    [get_incident_age_minutes], once per call: an age that is returned was
    computed against the reading taken at that call, and a pass over the
    incidents that comes to its end has read the clock once for each of
    them. *)
Theorem clock_is_read_per_incident :
  (forall inc w tr age tr',
     get_incident_age_minutes inc w tr = (inr age, tr') ->
     tr' = (tr ++ [EvUtcNow])%list /\
     exists text created,
       subscript inc "created_at" = inr text /\
       parse_created_at w text = inr created /\
       age = minutes_of_micros (utcnow w (List.length tr) - instant created)) /\
  (forall k N l w tr tr',
     for_each (process_incident k N) l w tr = (inr tt, tr') ->
     clock_reads tr' = (clock_reads tr + List.length l)%nat).
Proof.
  split.
  - intros inc w tr age tr' H.
    destruct (get_incident_age_minutes_returns _ _ _ _ _ H)
      as [-> [text [created [Ht [Hc [_ Hv]]]]]].
    split; [reflexivity|]. exists text, created. auto.
  - intros k N l w. induction l as [|x l IH]; intros tr tr' H.
    + inversion H; subst. simpl. symmetry. apply Nat.add_0_r.
    + rewrite for_each_cons in H.
      destruct (process_incident k N x w tr) as [[e|[]] tr1] eqn:Hx;
        [discriminate|].
      rewrite (IH _ _ H), (process_incident_clock_reads _ _ _ _ _ _ Hx).
      simpl. lia.
Qed.

Lemma clock_is_read_per_incident_witness :
  clock_reads
    (snd (for_each (process_incident "key" 3) [twin_a; twin_b] ticking_world []))
  = (clock_reads [] + List.length [twin_a; twin_b])%nat.
Proof.
  apply (proj2 clock_is_read_per_incident "key" 3 [twin_a; twin_b] ticking_world []).
  vm_compute. reflexivity.
Defined.

(** C5, as the specification has it, fails: in one cycle over two
    incidents created at the same instant, the clock is read twice, and
    as it moved in between the second incident is acknowledged and the
    first is not. *)
Lemma now_is_sampled_again :
  let tr := snd (cycle "key" (VStr "PUSER") 3 ticking_world []) in
  subscript twin_a "created_at" = subscript twin_b "created_at" /\
  clock_reads tr = 2%nat /\
  acknowledgments tr = [EvHttp (ack_request ticking_world "key" (VStr "P2"))].
Proof. vm_compute. repeat split; reflexivity. Qed.

(** ** The loop and its handlers *)

(** Every turn of the loop begins by asking the remote for the triggered
    incidents. *)
Lemma loop_iteration_starts_with_fetch k u N :
  starts_with (EvHttp (incidents_request k u "triggered")) (loop_iteration k u N).
Proof.
  unfold loop_iteration. apply starts_with_try_except.
  - apply starts_with_bind; [|intro; apply emits_ret].
    unfold cycle. apply starts_with_bind.
    + unfold get_incidents. simpl get_incidents_loop.
      apply starts_with_bind.
      * unfold fetch_status.
        apply starts_with_bind; [apply requests_send_starts | intro; emits_pure].
      * intro. apply emits_bind; [|intro; apply emits_ret].
        eapply emits_weaken; [|apply fetch_status_no_put]. intros; exact I.
    + intro. apply emits_bind; [apply emits_lift | intro].
      apply emits_bind; [|intro; apply time_sleep_emits].
      apply emits_for_each. intro. apply process_incident_emits.
  - intros [|cls msg].
    + apply emits_bind; [|intro; apply emits_ret].
      eapply emits_weaken; [|apply print_emits]. intros; exact I.
    + apply emits_bind; [|intro].
      * eapply emits_weaken; [|apply print_emits]. intros; exact I.
      * apply emits_bind; [apply time_sleep_emits | intro; apply emits_ret].
Qed.

(** The [except Exception] clause: the message is printed, the daemon
    sleeps the interval, and the loop goes on. *)
Lemma loop_iteration_on_error k u N w tr cls msg tr1 :
  cycle k u N w tr = (inl (Exception cls msg), tr1) ->
  0 <= N ->
  stdout_write w (List.length tr1) ("Error: " ++ msg ++ NL) = inr tt ->
  sleep w (S (List.length tr1)) (N * 60) = inr tt ->
  loop_iteration k u N w tr =
    (inr Continue,
     (tr1 ++ [EvWrite ("Error: " ++ msg ++ NL); EvSleep (N * 60)])%list).
Proof.
  intros Hcycle HN Hprint Hsleep.
  unfold loop_iteration, try_except.
  rewrite (bind_inl _ _ _ _ _ _ Hcycle).
  unfold bind, print, sys_stdout_write.
  change (("Error: " ++ msg) ++ NL) with ("Error: " ++ msg ++ NL).
  rewrite Hprint. unfold time_sleep.
  replace (N * 60 <? 0) with false by (symmetry; apply Z.ltb_ge; lia).
  rewrite length_app. simpl List.length. rewrite Nat.add_1_r, Hsleep.
  unfold ret. rewrite <- app_assoc. reflexivity.
Qed.

(** C2, as the program has it. The handler's own [print] and
    [time.sleep] are outside the [try]. If anything in a cycle raises an
    exception of class [Exception] (in the fetch, the filtering, an
    acknowledgment, a notification or the sleep), and the interval is not
    negative, and the print and the sleep of the handler themselves go
    through, then the turn of the loop catches it, prints "Error: " and
    its message, sleeps the interval once and ends with the loop still
    running; the next turn starts a new cycle with a fresh fetch. *)
Theorem cycle_error_is_survived k u N w tr cls msg tr1 :
  cycle k u N w tr = (inl (Exception cls msg), tr1) ->
  0 <= N ->
  stdout_write w (List.length tr1) ("Error: " ++ msg ++ NL) = inr tt ->
  sleep w (S (List.length tr1)) (N * 60) = inr tt ->
  let tr2 := (tr1 ++ [EvWrite ("Error: " ++ msg ++ NL); EvSleep (N * 60)])%list in
  loop_iteration k u N w tr = (inr Continue, tr2) /\
  (forall turns,
     while_true (S turns) (loop_iteration k u N) w tr =
     while_true turns (loop_iteration k u N) w tr2) /\
  (exists rest,
     snd (loop_iteration k u N w tr2) =
     (tr2 ++ EvHttp (incidents_request k u "triggered") :: rest)%list).
Proof.
  intros Hcycle HN Hprint Hsleep tr2.
  pose proof (loop_iteration_on_error _ _ _ _ _ _ _ _ Hcycle HN Hprint Hsleep)
    as Hturn.
  split; [exact Hturn|]. split.
  - intros turns. apply while_true_continue. exact Hturn.
  - apply loop_iteration_starts_with_fetch.
Qed.

Lemma cycle_error_is_survived_witness :
  let tr2 := [EvHttp (incidents_request "key" (VStr "PUSER") "triggered");
              EvWrite ("Error: connection refused" ++ NL); EvSleep (3 * 60)] in
  loop_iteration "key" (VStr "PUSER") 3 flaky_world [] = (inr Continue, tr2) /\
  (forall turns,
     while_true (S turns) (loop_iteration "key" (VStr "PUSER") 3) flaky_world [] =
     while_true turns (loop_iteration "key" (VStr "PUSER") 3) flaky_world tr2) /\
  (exists rest,
     snd (loop_iteration "key" (VStr "PUSER") 3 flaky_world tr2) =
     (tr2 ++ EvHttp (incidents_request "key" (VStr "PUSER") "triggered") :: rest)%list).
Proof.
  apply (cycle_error_is_survived "key" (VStr "PUSER") 3 flaky_world []
           "ConnectionError" "connection refused"
           [EvHttp (incidents_request "key" (VStr "PUSER") "triggered")]).
  - reflexivity.
  - lia.
  - reflexivity.
  - reflexivity.
Defined.

(** C2, as the specification has it, fails: an exception of a single
    cycle can end the daemon. With standard output closed, the request
    for the triggered incidents fails, the handler's print of the error
    raises, and the loop is left with that exception, without a sleep and
    without a second fetch, however many turns were to come. The same
    happens when standard output goes away after the banner: the log line
    for the first acknowledgment raises inside the cycle, the handler's
    print raises in turn, and [background_ack] ends with [BrokenPipeError]
    having slept not once. *)
Lemma cycle_error_ends_daemon :
  (cycle "key" (VStr "PUSER") 3 flaky_closed_stdout_world [] =
     (inl (Exception "ConnectionError" "connection refused"),
      [EvHttp (incidents_request "key" (VStr "PUSER") "triggered")]) /\
   forall turns,
     while_true (S turns) (loop_iteration "key" (VStr "PUSER") 3)
       flaky_closed_stdout_world [] =
     (inl (Exception "ValueError" "I/O operation on closed file."),
      [EvHttp (incidents_request "key" (VStr "PUSER") "triggered");
       EvWrite ("Error: connection refused" ++ NL)])) /\
  (forall turns,
     background_ack (S turns) "key" 3 stdout_dies_world [] =
     (inl (Exception "BrokenPipeError" "[Errno 32] Broken pipe"),
      [EvWrite ("Background ack daemon started. Auto-ack threshold: 3 min" ++ NL);
       EvWrite ("Checking every 3 minutes. Press Ctrl+C to stop." ++ NL ++ NL);
       EvHttp (user_request "key");
       EvHttp (incidents_request "key" (VStr "PUSER") "triggered");
       EvHttp (incidents_request "key" (VStr "PUSER") "acknowledged");
       EvUtcNow;
       EvHttp (ack_request stdout_dies_world "key" (VStr "P1"));
       EvLocalNow;
       EvWrite ("[00:10:00] Auto-acked (10.0 min old):" ++ NL);
       EvWrite ("Error: [Errno 32] Broken pipe" ++ NL)])).
Proof.
  split; [split|].
  - reflexivity.
  - intros turns. vm_compute. reflexivity.
  - intros turns. vm_compute. reflexivity.
Qed.

(** C10. The handler is around the whole cycle. If the incidents before
    some triggered incident were processed normally and processing that
    one raises, the cycle ends there with that exception: what the cycle
    added to the trace stops with the events of that incident (at most one
    clock reading, no request but its own update), so the incidents after
    it are neither examined nor acknowledged. For an exception of class
    [Exception] the turn then prints the error, sleeps the interval, and
    the next turn starts with a fresh fetch. *)
Theorem exception_ends_the_cycle k u N w tr incidents tr0 before inc after tr1
    cls msg tr2 :
  get_incidents k u w tr = (inr incidents, tr0) ->
  with_status "triggered" incidents = inr (before ++ inc :: after)%list ->
  for_each (process_incident k N) before w tr0 = (inr tt, tr1) ->
  process_incident k N inc w tr1 = (inl (Exception cls msg), tr2) ->
  cycle k u N w tr = (inl (Exception cls msg), tr2) /\
  (exists evs,
     tr2 = (tr1 ++ evs)%list /\
     (clock_reads evs <= 1)%nat /\
     forall rq, In (EvHttp rq) evs ->
       exists id, subscript inc "id" = inr id /\ rq = ack_request w k id) /\
  (0 <= N ->
   stdout_write w (List.length tr2) ("Error: " ++ msg ++ NL) = inr tt ->
   sleep w (S (List.length tr2)) (N * 60) = inr tt ->
   let tr3 := (tr2 ++ [EvWrite ("Error: " ++ msg ++ NL); EvSleep (N * 60)])%list in
   loop_iteration k u N w tr = (inr Continue, tr3) /\
   exists rest,
     snd (loop_iteration k u N w tr3) =
     (tr3 ++ EvHttp (incidents_request k u "triggered") :: rest)%list).
Proof.
  intros Hget Hkept Hbefore Hinc.
  assert (Hcycle : cycle k u N w tr = (inl (Exception cls msg), tr2)).
  { unfold cycle. rewrite (bind_inr _ _ _ _ _ _ Hget).
    unfold bind at 1, lift. rewrite Hkept.
    apply bind_inl. rewrite for_each_app, Hbefore, for_each_cons, Hinc.
    reflexivity. }
  split; [exact Hcycle|]. split.
  - destruct (process_incident_requests _ _ _ _ _ _ _ Hinc) as [evs [E Hevs]].
    destruct (process_incident_one_clock_read _ _ _ _ _ _ _ Hinc) as [evs' [E' Hc]].
    rewrite E in E'. apply app_inv_head in E'. subst evs'.
    exists evs. split; [exact E|]. split; [exact Hc|].
    intros rq Hrq. destruct (Hevs rq Hrq) as [age [id [outs [_ [_ [Hid [-> _]]]]]]].
    exists id. auto.
  - intros HN Hprint Hsleep tr3. split.
    + apply (loop_iteration_on_error _ _ _ _ _ _ _ _ Hcycle HN Hprint Hsleep).
    + apply loop_iteration_starts_with_fetch.
Qed.

Lemma exception_ends_the_cycle_witness :
  let tr2 := snd (process_incident "key" 3 old_incident helper_missing_world fetched) in
  cycle "key" (VStr "PUSER") 3 helper_missing_world [] =
    (inl (Exception "FileNotFoundError"
            "[Errno 2] No such file or directory: 'osascript'"), tr2) /\
  acknowledgments tr2 = [EvHttp (ack_request helper_missing_world "key" (VStr "P1"))] /\
  loop_iteration "key" (VStr "PUSER") 3 helper_missing_world [] =
    (inr Continue,
     (tr2 ++ [EvWrite ("Error: [Errno 2] No such file or directory: 'osascript'" ++ NL);
              EvSleep (3 * 60)])%list).
Proof.
  destruct (exception_ends_the_cycle "key" (VStr "PUSER") 3 helper_missing_world []
              [old_incident; older_incident] fetched
              [] old_incident [older_incident] fetched
              "FileNotFoundError"
              "[Errno 2] No such file or directory: 'osascript'"
              (snd (process_incident "key" 3 old_incident helper_missing_world fetched)))
    as [Hcycle [_ Hturn]]; try reflexivity.
  split; [exact Hcycle|]. split; [reflexivity|].
  apply Hturn; [lia | reflexivity | reflexivity].
Defined.


(** * Further properties of the program *)

(** ** Timestamps and ages *)

Lemma string_app_assoc (a b c : string) : ((a ++ b) ++ c = a ++ (b ++ c))%string.
Proof. induction a as [|x a IH]; simpl; [reflexivity | rewrite IH; reflexivity]. Qed.

Lemma str_replace_app old new a b :
  str_replace old new (a ++ b) = str_replace old new a ++ str_replace old new b.
Proof.
  induction a as [|x a IH]; simpl; [reflexivity|].
  destruct (Ascii.eqb x old); rewrite IH; [|reflexivity].
  symmetry. apply string_app_assoc.
Qed.

(** A timestamp that ends in [Z] is parsed as the same text ending in
    [+00:00], whatever comes before the suffix. *)
Theorem parse_created_at_Z_is_utc w text :
  parse_created_at w (VStr (text ++ "Z")) =
  parse_created_at w (VStr (text ++ "+00:00")).
Proof.
  unfold parse_created_at. simpl. rewrite !str_replace_app. reflexivity.
Qed.

(** Whatever string comes in, the text handed to [fromisoformat] holds no
    [Z], and a text without [Z] is handed over unchanged. *)
Theorem parse_created_at_replaces_every_Z w text :
  parse_created_at w (VStr text)
    = fromisoformat w (str_replace "Z"%char "+00:00" text) /\
  contains_char "Z"%char (str_replace "Z"%char "+00:00" text) = false /\
  (contains_char "Z"%char text = false ->
   str_replace "Z"%char "+00:00" text = text).
Proof.
  split; [reflexivity|]. split.
  - induction text as [|x text IH]; simpl; [reflexivity|].
    destruct (Ascii.eqb x "Z") eqn:E.
    + exact IH.
    + simpl. rewrite E, IH. reflexivity.
  - induction text as [|x text IH]; simpl; [reflexivity|].
    destruct (Ascii.eqb x "Z"); simpl; [discriminate|].
    intros H. rewrite (IH H). reflexivity.
Qed.

Lemma parse_created_at_replaces_every_Z_witness :
  contains_char "Z"%char "2024-01-01T00:00:00+00:00" = false /\
  str_replace "Z"%char "+00:00" "2024-01-01T00:00:00+00:00"
    = "2024-01-01T00:00:00+00:00".
Proof.
  split; [reflexivity|].
  apply (proj2 (proj2 (parse_created_at_replaces_every_Z scenario_world
                         "2024-01-01T00:00:00+00:00"))).
  reflexivity.
Defined.

Lemma get_incident_age_minutes_computes inc w tr text created :
  subscript inc "created_at" = inr text ->
  parse_created_at w text = inr created ->
  aware created = true ->
  get_incident_age_minutes inc w tr =
  (inr (minutes_of_micros (utcnow w (List.length tr) - instant created)),
   (tr ++ [EvUtcNow])%list).
Proof.
  intros Ht Hc Ha.
  unfold get_incident_age_minutes, bind, ask, lift, datetime_now_utc, ret.
  rewrite Ht, Hc. unfold datetime_sub. rewrite Ha. reflexivity.
Qed.

(** A creation time without time zone cannot be subtracted from the
    clock: the age computation raises [TypeError] once the clock was read,
    and so does the loop body, before any request for the incident. *)
Theorem naive_timestamp_raises k N inc w tr text created :
  subscript inc "created_at" = inr text ->
  parse_created_at w text = inr created ->
  aware created = false ->
  let e := Exception "TypeError"
             "can't subtract offset-naive and offset-aware datetimes" in
  get_incident_age_minutes inc w tr = (inl e, (tr ++ [EvUtcNow])%list) /\
  process_incident k N inc w tr = (inl e, (tr ++ [EvUtcNow])%list).
Proof.
  intros Ht Hc Ha e.
  assert (Hage : get_incident_age_minutes inc w tr = (inl e, (tr ++ [EvUtcNow])%list)).
  { unfold get_incident_age_minutes, bind, ask, lift, datetime_now_utc, ret.
    rewrite Ht, Hc. unfold datetime_sub. rewrite Ha. reflexivity. }
  split; [exact Hage|]. rewrite process_incident_run, Hage. reflexivity.
Qed.

Lemma naive_timestamp_raises_witness :
  let e := Exception "TypeError"
             "can't subtract offset-naive and offset-aware datetimes" in
  get_incident_age_minutes old_incident naive_world [] = (inl e, [EvUtcNow]) /\
  process_incident "key" 3 old_incident naive_world [] = (inl e, [EvUtcNow]).
Proof.
  apply (naive_timestamp_raises "key" 3 old_incident naive_world []
           (VStr "2024-01-01T00:00:00Z")
           {| instant := 1704067200000000; aware := false |});
    reflexivity.
Defined.

(** Without a usable [created_at] (the key is missing, the value is not a
    string, or the text does not parse) the age computation raises before
    it reads the clock, and the loop body raises the same without having
    touched anything. *)
Theorem unusable_timestamp_raises_before_clock k N inc w tr e :
  (let? text := subscript inc "created_at" in parse_created_at w text)%res = inl e ->
  get_incident_age_minutes inc w tr = (inl e, tr) /\
  process_incident k N inc w tr = (inl e, tr).
Proof.
  intros H.
  assert (Hage : get_incident_age_minutes inc w tr = (inl e, tr)).
  { unfold get_incident_age_minutes, bind, ask, lift. unfold rbind in H.
    destruct (subscript inc "created_at") as [e1|text]; [congruence|].
    rewrite H. reflexivity. }
  split; [exact Hage|]. rewrite process_incident_run, Hage. reflexivity.
Qed.

Lemma unusable_timestamp_raises_before_clock_witness :
  get_incident_age_minutes (VDict [("id", VStr "P1")]) scenario_world fetched
    = (inl (Exception "KeyError" "'created_at'"), fetched) /\
  process_incident "key" 3 (VDict [("id", VStr "P1")]) scenario_world fetched
    = (inl (Exception "KeyError" "'created_at'"), fetched).
Proof.
  apply (unusable_timestamp_raises_before_clock "key" 3
           (VDict [("id", VStr "P1")]) scenario_world fetched).
  reflexivity.
Defined.

(** An incident whose creation time lies after the reading of the clock
    has a negative age: for an interval that is not negative the loop body
    leaves it alone, with the clock reading as its only event. *)
Theorem future_incident_is_left_alone k N inc w tr text created :
  subscript inc "created_at" = inr text ->
  parse_created_at w text = inr created ->
  aware created = true ->
  utcnow w (List.length tr) < instant created ->
  0 <= N ->
  process_incident k N inc w tr = (inr tt, (tr ++ [EvUtcNow])%list).
Proof.
  intros Ht Hc Ha Hlater HN.
  rewrite process_incident_run,
    (get_incident_age_minutes_computes _ _ _ _ _ Ht Hc Ha).
  rewrite old_enough_negative_age by lia.
  reflexivity.
Qed.

Lemma future_incident_is_left_alone_witness :
  process_incident "key" 0 young_incident early_clock_world []
    = (inr tt, [EvUtcNow]).
Proof.
  apply (future_incident_is_left_alone "key" 0 young_incident early_clock_world []
           (VStr "2024-01-01T00:09:00Z")
           {| instant := 1704067740000000; aware := true |});
    reflexivity.
Defined.

(** Eligibility only grows with time and with a shorter interval: an
    incident that is old enough at one reading of the clock is old enough
    at every later reading, and for every smaller interval. *)
Theorem old_enough_is_monotone created now later N M :
  old_enough (minutes_of_micros (now - created)) N = true ->
  now <= later ->
  M <= N ->
  old_enough (minutes_of_micros (later - created)) M = true.
Proof.
  unfold old_enough. intros H Hl HM.
  apply Qle_bool_iff in H. apply Qle_bool_iff.
  assert (Hmono : (minutes_of_micros (now - created)
                   <= minutes_of_micros (later - created))%Q)
    by (apply minutes_of_micros_mono; lia).
  rewrite Zle_Qle in HM. lra.
Qed.

Lemma old_enough_is_monotone_witness :
  old_enough (minutes_of_micros (ten_past_midnight + 1 - 1704067200000000)) 3 = true.
Proof.
  apply (old_enough_is_monotone 1704067200000000 ten_past_midnight
           (ten_past_midnight + 1) 10 3).
  - reflexivity.
  - unfold ten_past_midnight. lia.
  - lia.
Defined.

(** ** The API client, continued *)

Lemma requests_send_emits (P : event -> Prop) rq :
  P (EvHttp rq) -> emits P (requests_send rq).
Proof.
  intros HP w tr. exists [EvHttp rq]. split; [reflexivity|].
  constructor; [exact HP | constructor].
Qed.

Lemma print_emits_any (P : event -> Prop) s :
  (forall text, P (EvWrite text)) -> emits P (print s).
Proof.
  intros HP w tr. eexists [_]. split; [reflexivity|].
  constructor; [apply HP | constructor].
Qed.

Lemma get_current_user_id_emits (P : event -> Prop) k :
  P (EvHttp (user_request k)) -> emits P (get_current_user_id k).
Proof.
  intros HP. unfold get_current_user_id.
  apply emits_bind; [apply requests_send_emits; exact HP | intro; emits_pure].
Qed.

Lemma get_incidents_emits (P : event -> Prop) k u :
  (forall status, P (EvHttp (incidents_request k u status))) ->
  emits P (get_incidents k u).
Proof.
  intros HP. unfold get_incidents. simpl get_incidents_loop.
  assert (Hone : forall status, emits P (fetch_status k u status)).
  { intros status. unfold fetch_status.
    apply emits_bind; [apply requests_send_emits; apply HP | intro; emits_pure]. }
  apply emits_bind; [apply Hone | intro].
  apply emits_bind; [apply Hone | intro; apply emits_ret].
Qed.

Lemma fetch_status_trace k u status w tr :
  snd (fetch_status k u status w tr) =
  (tr ++ [EvHttp (incidents_request k u status)])%list.
Proof.
  unfold fetch_status, bind, requests_send, lift.
  destruct (http w (List.length tr) (incidents_request k u status)) as [e|resp];
    [reflexivity|].
  destruct (raise_for_status resp) as [e|[]]; [reflexivity|].
  destruct (json resp) as [e|body]; [reflexivity|].
  destruct (subscript body "incidents"); reflexivity.
Qed.

(** A response with a status from 400 to 599 makes [get_current_user_id]
    raise [HTTPError]; the body is not looked at, even if it names a
    user. *)
Theorem get_current_user_id_refused k w tr resp :
  http w (List.length tr) (user_request k) = inr resp ->
  400 <= status_code resp < 600 ->
  get_current_user_id k w tr =
    (inl (Exception "HTTPError" (http_error_msg resp)),
     (tr ++ [EvHttp (user_request k)])%list).
Proof.
  intros Hresp [Hlo Hhi].
  unfold get_current_user_id, bind, requests_send, lift. rewrite Hresp.
  unfold raise_for_status.
  replace (400 <=? status_code resp) with true by (symmetry; apply Z.leb_le; exact Hlo).
  replace (status_code resp <? 600) with true by (symmetry; apply Z.ltb_lt; exact Hhi).
  reflexivity.
Qed.

Lemma get_current_user_id_refused_witness :
  get_current_user_id "key" unauthorized_world [] =
    (inl (Exception "HTTPError" "401 Client Error: Unauthorized for url: https://api.pagerduty.com/users/me"),
     [EvHttp (user_request "key")]).
Proof.
  apply (get_current_user_id_refused "key" unauthorized_world []
           {| status_code := 401; reason := "Unauthorized";
              resp_url := url (user_request "key"); json := ok (VDict []) |}).
  - reflexivity.
  - simpl. lia.
Defined.

(** When the request for the triggered incidents fails, in whatever way,
    [get_incidents] raises that failure and the request for the
    acknowledged ones is never sent. *)
Theorem get_incidents_stops_at_first_failure k u w tr e tr1 :
  fetch_status k u "triggered" w tr = (inl e, tr1) ->
  get_incidents k u w tr =
    (inl e, (tr ++ [EvHttp (incidents_request k u "triggered")])%list).
Proof.
  intros H. rewrite get_incidents_run, H.
  pose proof (fetch_status_trace k u "triggered" w tr) as Htr.
  rewrite H in Htr. simpl in Htr. rewrite Htr. reflexivity.
Qed.

Lemma get_incidents_stops_at_first_failure_witness :
  get_incidents "key" (VStr "PUSER") flaky_world [] =
    (inl (Exception "ConnectionError" "connection refused"),
     [EvHttp (incidents_request "key" (VStr "PUSER") "triggered")]).
Proof.
  apply (get_incidents_stops_at_first_failure "key" (VStr "PUSER") flaky_world []
           (Exception "ConnectionError" "connection refused")
           [EvHttp (incidents_request "key" (VStr "PUSER") "triggered")]).
  reflexivity.
Defined.

(** ** Listing *)

Lemma list_group_emits title none group :
  emits is_get_or_write (list_group title none group).
Proof.
  unfold list_group.
  apply emits_bind; [apply emits_ask | intro w].
  do 3 (apply emits_bind; [apply print_emits_any; intro; exact I | intro]).
  destruct group as [|x rest].
  - apply print_emits_any. intro; exact I.
  - apply emits_for_each. intro inc. unfold list_one.
    apply emits_bind; [apply emits_ask | intro].
    apply emits_bind; [apply emits_lift | intro].
    apply emits_bind; apply print_emits_any || intro; try (intro; exact I).
    apply print_emits_any. intro; exact I.
Qed.

(** [list_incidents] only reads and prints: whatever the remote answers
    and however the run ends, every event it adds is a GET request or a
    line on standard output; it sends no update, reads no clock and starts
    no process. *)
Theorem list_incidents_only_reads k : emits is_get_or_write (list_incidents k).
Proof.
  unfold list_incidents.
  apply emits_bind; [apply get_current_user_id_emits; reflexivity | intro u].
  apply emits_bind; [apply get_incidents_emits; intro; reflexivity | intro].
  apply emits_bind; [apply emits_lift | intro].
  apply emits_bind; [apply emits_lift | intro].
  apply emits_bind; [apply list_group_emits | intro].
  apply emits_bind; [apply list_group_emits | intro].
  apply print_emits_any. intro; exact I.
Qed.

(** ** Acknowledging everything *)

Lemma writes_are_no_put outs : Forall is_write outs -> filter is_put outs = [].
Proof.
  induction 1 as [|ev outs Hev _ IH]; [reflexivity|].
  simpl. rewrite IH. destruct ev; simpl in *; try reflexivity; contradiction.
Qed.

Lemma print_run s w tr :
  print s w tr = (stdout_write w (List.length tr) (s ++ NL), (tr ++ [EvWrite (s ++ NL)])%list).
Proof. reflexivity. Qed.

(** What [ack_one] adds, whatever its outcome: nothing (the incident has
    no id), or the update request followed by at most one printed line. *)
Lemma ack_one_events k inc w tr r tr' :
  ack_one k inc w tr = (r, tr') ->
  (tr' = tr /\ exists e, r = inl e) \/
  (exists id outs,
     subscript inc "id" = inr id /\
     tr' = (tr ++ EvHttp (ack_request w k id) :: outs)%list /\
     Forall is_write outs).
Proof.
  unfold ack_one, bind at 1, ask. unfold bind at 1, lift.
  destruct (subscript inc "id") as [e|id] eqn:Hid.
  - intros H; inversion H; subst. left. eauto.
  - unfold bind at 1. rewrite acknowledge_incident_run.
    intros H. right. exists id.
    destruct (http w (List.length tr) (ack_request w k id)) as [e|resp].
    + inversion H; subst. exists []. auto.
    + destruct (status_code resp =? 200).
      * unfold bind, lift in H.
        destruct (dict_get inc "summary" (VStr EmptyString)) as [e|summary_all].
        { inversion H; subst. exists []. auto. }
        destruct (slice_to 50 summary_all) as [e|summary].
        { inversion H; subst. exists []. auto. }
        rewrite print_run in H. inversion H; subst.
        eexists [_]. rewrite <- app_assoc. repeat split; auto.
        constructor; [exact I | constructor].
      * unfold bind, lift in H. rewrite print_run in H. inversion H; subst.
        eexists [_]. rewrite <- app_assoc. repeat split; auto.
        constructor; [exact I | constructor].
Qed.

Lemma for_each_ack_one k w l : forall tr r tr',
  for_each (ack_one k) l w tr = (r, tr') ->
  exists n ids evs,
    tr' = (tr ++ evs)%list /\
    (n <= List.length l)%nat /\
    map id_of (firstn n l) = map inr ids /\
    acknowledgments evs = map (fun id => EvHttp (ack_request w k id)) ids /\
    Forall is_http_or_write evs /\
    (r = inr tt -> n = List.length l).
Proof.
  induction l as [|x l IH]; intros tr r tr' H.
  - inversion H; subst. exists 0%nat, [], [].
    repeat split; auto. symmetry; apply app_nil_r.
  - rewrite for_each_cons in H.
    destruct (ack_one k x w tr) as [r1 tr1] eqn:Hx.
    destruct (ack_one_events _ _ _ _ _ _ Hx)
      as [[-> [e ->]] | [id [outs [Hid [-> Houts]]]]].
    + inversion H; subst. exists 0%nat, [], [].
      repeat split; auto; try discriminate.
      * symmetry; apply app_nil_r.
      * apply Nat.le_0_l.
    + assert (Hput : acknowledgments (EvHttp (ack_request w k id) :: outs)
                     = [EvHttp (ack_request w k id)]).
      { unfold acknowledgments. simpl. rewrite (writes_are_no_put _ Houts).
        reflexivity. }
      assert (Hkind : Forall is_http_or_write (EvHttp (ack_request w k id) :: outs)).
      { constructor; [exact I|]. eapply Forall_impl; [|exact Houts].
        intros ev; destruct ev; simpl; auto. }
      destruct r1 as [e|[]].
      * inversion H; subst. exists 1%nat, [id], (EvHttp (ack_request w k id) :: outs).
        repeat split; auto; try discriminate.
        -- simpl. apply le_n_S, Nat.le_0_l.
        -- simpl. unfold id_of at 1. rewrite Hid. reflexivity.
      * destruct (IH _ _ _ H) as [n [ids [evs [-> [Hn [Hids [Hacks [Hevs Hall]]]]]]]].
        exists (S n), (id :: ids), ((EvHttp (ack_request w k id) :: outs) ++ evs)%list.
        repeat split.
        -- symmetry. apply app_assoc.
        -- simpl. apply le_n_S. exact Hn.
        -- simpl. unfold id_of at 1. rewrite Hid, Hids. reflexivity.
        -- unfold acknowledgments in *. rewrite filter_app, Hput, Hacks. reflexivity.
        -- apply Forall_app. split; assumption.
        -- intros Hr. simpl. f_equal. apply Hall. exact Hr.
Qed.

(** [ack_all] sends its updates for the triggered incidents of its own
    fetch, one each, in the order of the fetch, without looking at their
    age or at the answers: however the run ends, the updates sent are
    those for the first [n] triggered incidents, and for all of them when
    it returns normally. Apart from requests it only prints. *)
Theorem ack_all_acknowledges_in_order k w tr u tr1 incidents tr2 triggered r tr' :
  get_current_user_id k w tr = (inr u, tr1) ->
  get_incidents k u w tr1 = (inr incidents, tr2) ->
  with_status "triggered" incidents = inr triggered ->
  ack_all k w tr = (r, tr') ->
  exists n ids evs,
    tr' = (tr2 ++ evs)%list /\
    (n <= List.length triggered)%nat /\
    map id_of (firstn n triggered) = map inr ids /\
    acknowledgments evs = map (fun id => EvHttp (ack_request w k id)) ids /\
    Forall is_http_or_write evs /\
    (r = inr tt -> n = List.length triggered).
Proof.
  intros Hu Hget Hkept. unfold ack_all.
  rewrite (bind_inr _ _ _ _ _ _ Hu), (bind_inr _ _ _ _ _ _ Hget).
  unfold bind at 1, lift. rewrite Hkept.
  destruct triggered as [|x rest].
  - rewrite print_run. intros H; inversion H; subst.
    exists 0%nat, [], [EvWrite ("No triggered incidents to acknowledge." ++ NL)].
    repeat split; auto. constructor; [exact I | constructor].
  - unfold bind at 1, ask. unfold bind at 1. rewrite print_run.
    destruct (stdout_write w (List.length tr2) _) as [e|[]].
    + intros H; inversion H; subst. exists 0%nat, []. eexists.
      split; [reflexivity|]. repeat split; auto; try discriminate.
      * apply Nat.le_0_l.
      * constructor; [exact I | constructor].
    + unfold bind at 1.
      destruct (for_each (ack_one k) (x :: rest) w _) as [r1 tr3] eqn:Hloop.
      destruct (for_each_ack_one _ _ _ _ _ _ Hloop)
        as [n [ids [evs [-> [Hn [Hids [Hacks [Hevs Hall]]]]]]]].
      destruct r1 as [e|[]].
      * intros H; inversion H; subst.
        exists n, ids. eexists. split; [symmetry; apply app_assoc|].
        repeat split; auto; try discriminate.
        constructor; [exact I | exact Hevs].
      * rewrite print_run. intros H; inversion H; subst.
        exists n, ids. eexists.
        split; [rewrite <- !app_assoc; reflexivity|].
        repeat split; auto.
        -- unfold acknowledgments in *. simpl. rewrite filter_app, Hacks. simpl.
           apply app_nil_r.
        -- constructor; [exact I|]. apply Forall_app. split; [exact Hevs|].
           constructor; [exact I | constructor].
Qed.

Lemma ack_all_acknowledges_in_order_witness :
  exists n ids evs,
    snd (ack_all "key" conflict_world []) =
      ((EvHttp (user_request "key") :: fetched) ++ evs)%list /\
    (n <= List.length [old_incident; young_incident])%nat /\
    map id_of (firstn n [old_incident; young_incident]) = map inr ids /\
    acknowledgments evs =
      map (fun id => EvHttp (ack_request conflict_world "key" id)) ids /\
    Forall is_http_or_write evs /\
    (fst (ack_all "key" conflict_world []) = inr tt ->
     n = List.length [old_incident; young_incident]).
Proof.
  apply (ack_all_acknowledges_in_order "key" conflict_world []
           (VStr "PUSER") [EvHttp (user_request "key")]
           [old_incident; young_incident]
           (EvHttp (user_request "key") :: fetched)
           [old_incident; young_incident]);
    reflexivity.
Defined.

(** With no triggered incident in the fetch, [ack_all] prints one line
    saying so and stops: no update request, no "Done." *)
Theorem ack_all_without_triggered k w tr u tr1 incidents tr2 :
  get_current_user_id k w tr = (inr u, tr1) ->
  get_incidents k u w tr1 = (inr incidents, tr2) ->
  with_status "triggered" incidents = inr [] ->
  ack_all k w tr =
    (stdout_write w (List.length tr2) ("No triggered incidents to acknowledge." ++ NL),
     (tr2 ++ [EvWrite ("No triggered incidents to acknowledge." ++ NL)])%list).
Proof.
  intros Hu Hget Hkept. unfold ack_all.
  rewrite (bind_inr _ _ _ _ _ _ Hu), (bind_inr _ _ _ _ _ _ Hget).
  unfold bind at 1, lift. rewrite Hkept. reflexivity.
Qed.

Lemma ack_all_without_triggered_witness :
  ack_all "key" quiet_world [] =
    (inr tt,
     ((EvHttp (user_request "key") :: fetched)
        ++ [EvWrite ("No triggered incidents to acknowledge." ++ NL)])%list).
Proof.
  apply (ack_all_without_triggered "key" quiet_world [] (VStr "PUSER")
           [EvHttp (user_request "key")]
           [record_of "A1" "acknowledged"]
           (EvHttp (user_request "key") :: fetched));
    reflexivity.
Defined.

(** In [ack_all] an update that is answered with a failure status is
    reported on its own line, "FAILED:" and the id, and the loop goes on
    with the next incident. *)
Theorem ack_one_failure_is_reported k inc rest w tr id resp :
  subscript inc "id" = inr id ->
  http w (List.length tr) (ack_request w k id) = inr resp ->
  status_code resp <> 200 ->
  stdout_write w (S (List.length tr)) ("  FAILED: " ++ fmt w id ++ NL) = inr tt ->
  let tr2 := (tr ++ [EvHttp (ack_request w k id);
                     EvWrite ("  FAILED: " ++ fmt w id ++ NL)])%list in
  ack_one k inc w tr = (inr tt, tr2) /\
  for_each (ack_one k) (inc :: rest) w tr = for_each (ack_one k) rest w tr2.
Proof.
  intros Hid Hresp Hcode Hprint tr2.
  assert (Hrun : ack_one k inc w tr = (inr tt, tr2)).
  { unfold ack_one, bind at 1, ask. unfold bind at 1, lift. rewrite Hid.
    unfold bind at 1. rewrite acknowledge_incident_run, Hresp.
    replace (status_code resp =? 200) with false
      by (symmetry; apply Z.eqb_neq; exact Hcode).
    unfold bind, lift. rewrite print_run.
    rewrite length_app. simpl List.length. rewrite Nat.add_1_r.
    change (("  FAILED: " ++ fmt w id) ++ NL) with ("  FAILED: " ++ fmt w id ++ NL).
    rewrite Hprint. unfold tr2. rewrite <- app_assoc. reflexivity. }
  split; [exact Hrun|]. rewrite for_each_cons, Hrun. reflexivity.
Qed.

Lemma ack_one_failure_is_reported_witness :
  let tr2 := [EvHttp (ack_request conflict_world "key" (VStr "P1"));
              EvWrite ("  FAILED: P1" ++ NL)] in
  ack_one "key" old_incident conflict_world [] = (inr tt, tr2) /\
  for_each (ack_one "key") [old_incident; young_incident] conflict_world [] =
  for_each (ack_one "key") [young_incident] conflict_world tr2.
Proof.
  apply (ack_one_failure_is_reported "key" old_incident [young_incident]
           conflict_world [] (VStr "P1") (json_response 409 (VDict []))).
  - reflexivity.
  - reflexivity.
  - simpl. discriminate.
  - reflexivity.
Defined.

(** ** Formatting *)

(** An incident that carries nothing but its id is formatted with the
    defaults: the id stands in for the incident number, the service is
    "Unknown", the summary "No summary", the creation time empty and the
    assignee "Unassigned". *)
Theorem format_incident_oneline_defaults w items id :
  lookup_item "id" items = Some id ->
  lookup_item "incident_number" items = None ->
  lookup_item "service" items = None ->
  lookup_item "summary" items = None ->
  lookup_item "created_at" items = None ->
  lookup_item "assignments" items = None ->
  format_incident_oneline w (VDict items) =
    inr ("[#" ++ fmt w id ++ "] Unknown: No summary" ++ NL
         ++ "    Created:  | Assignee: Unassigned").
Proof.
  intros Hid Hnum Hsvc Hsum Hcreated Hassign.
  unfold format_incident_oneline, dict_get, get_method, subscript, lookup_default.
  simpl rbind. rewrite Hid, Hnum, Hsvc, Hsum, Hcreated, Hassign.
  reflexivity.
Qed.

Lemma format_incident_oneline_defaults_witness :
  format_incident_oneline scenario_world (VDict [("id", VStr "P1")]) =
    inr ("[#P1] Unknown: No summary" ++ NL
         ++ "    Created:  | Assignee: Unassigned").
Proof.
  apply (format_incident_oneline_defaults scenario_world [("id", VStr "P1")]
           (VStr "P1"));
    reflexivity.
Defined.

(** The text of an incident depends on its priority only through the
    marker after the id: the marker is there exactly when the priority is
    truthy, and the rest of the text is that of the other fields. *)
Lemma format_incident_shape w items p text :
  format_incident w (VDict (("priority", p) :: items)) = inr text ->
  exists id rest,
    lookup_item "id" items = Some id /\
    text = "  " ++ fmt w id ++ (if truthy p then " [P1]" else EmptyString)
           ++ NL ++ rest /\
    forall q,
      format_incident w (VDict (("priority", q) :: items)) =
      inr ("  " ++ fmt w id ++ (if truthy q then " [P1]" else EmptyString)
           ++ NL ++ rest).
Proof.
  unfold format_incident, dict_get, get_method, subscript, lookup_default.
  simpl. unfold rbind.
  destruct (lookup_item "id" items) as [id|]; unfold ok, KeyError, fail;
    cbv beta iota;
    repeat match goal with
    | |- (match ?x with inl _ => _ | inr _ => _ end = inr _ -> _) =>
        destruct x as [?|?]; [discriminate|]
    end;
    [|discriminate].
  intros H. inversion H; subst text; clear H.
  exists id. eexists. split; [reflexivity|]. split; [reflexivity|].
  intros q. reflexivity.
Qed.

Lemma format_incident_defaults w items p id :
  lookup_item "id" items = Some id ->
  lookup_item "service" items = None ->
  lookup_item "summary" items = None ->
  lookup_item "created_at" items = None ->
  lookup_item "assignments" items = None ->
  format_incident w (VDict (("priority", p) :: items)) =
    inr ("  " ++ fmt w id ++ (if truthy p then " [P1]" else EmptyString) ++ NL
         ++ "    Unknown" ++ NL ++ "    No summary" ++ NL
         ++ "    Created:  | Assignee: Unassigned").
Proof.
  intros Hid Hsvc Hsum Hcreated Hassign.
  unfold format_incident, dict_get, get_method, subscript, lookup_default.
  simpl. rewrite Hid, Hsvc, Hsum, Hcreated, Hassign. reflexivity.
Qed.

(** The listing marks an incident with " [P1]" whenever it has a
    priority at all: which priority it is makes no difference to the
    text. The text returned for an incident with a truthy priority has
    " [P1]" right after the id on its first line, and without the marker
    it is the text of the same incident with a priority that is not
    truthy. For an incident that carries nothing else but its id the text
    is returned, with the marker and the defaults of the other fields. *)
Theorem format_incident_ignores_priority_level w items p q :
  truthy p = true ->
  truthy q = true ->
  format_incident w (VDict (("priority", p) :: items)) =
  format_incident w (VDict (("priority", q) :: items)) /\
  (forall text,
     format_incident w (VDict (("priority", p) :: items)) = inr text ->
     exists id rest,
       lookup_item "id" items = Some id /\
       text = "  " ++ fmt w id ++ " [P1]" ++ NL ++ rest /\
       forall r, truthy r = false ->
         format_incident w (VDict (("priority", r) :: items)) =
         inr ("  " ++ fmt w id ++ NL ++ rest)) /\
  (forall id,
     lookup_item "id" items = Some id ->
     lookup_item "service" items = None ->
     lookup_item "summary" items = None ->
     lookup_item "created_at" items = None ->
     lookup_item "assignments" items = None ->
     format_incident w (VDict (("priority", p) :: items)) =
       inr ("  " ++ fmt w id ++ " [P1]" ++ NL
            ++ "    Unknown" ++ NL ++ "    No summary" ++ NL
            ++ "    Created:  | Assignee: Unassigned")).
Proof.
  intros Hp Hq. split; [|split].
  - destruct (format_incident w (VDict (("priority", p) :: items)))
      as [e|text] eqn:Hfmt.
    + unfold format_incident, dict_get, get_method, subscript, lookup_default in *.
      simpl in *. rewrite Hp in Hfmt. rewrite Hq. symmetry. exact Hfmt.
    + destruct (format_incident_shape _ _ _ _ Hfmt) as [id [rest [_ [Htext Hall]]]].
      rewrite (Hall q), Htext, Hp, Hq. reflexivity.
  - intros text Hfmt.
    destruct (format_incident_shape _ _ _ _ Hfmt) as [id [rest [Hid [-> Hall]]]].
    exists id, rest. split; [exact Hid|]. split; [rewrite Hp; reflexivity|].
    intros r Hr. rewrite (Hall r), Hr. reflexivity.
  - intros id Hid Hsvc Hsum Hcreated Hassign.
    rewrite (format_incident_defaults _ _ p _ Hid Hsvc Hsum Hcreated Hassign), Hp.
    reflexivity.
Qed.

Lemma format_incident_ignores_priority_level_witness :
  format_incident scenario_world
    (VDict [("priority", VDict [("summary", VStr "P1")]); ("id", VStr "P1")]) =
  format_incident scenario_world
    (VDict [("priority", VDict [("summary", VStr "P4")]); ("id", VStr "P1")]) /\
  format_incident scenario_world
    (VDict [("priority", VDict [("summary", VStr "P1")]); ("id", VStr "P1")]) =
    inr ("  P1 [P1]" ++ NL ++ "    Unknown" ++ NL ++ "    No summary" ++ NL
         ++ "    Created:  | Assignee: Unassigned").
Proof.
  destruct (format_incident_ignores_priority_level scenario_world
              [("id", VStr "P1")]
              (VDict [("summary", VStr "P1")]) (VDict [("summary", VStr "P4")])
              eq_refl eq_refl) as [Hsame [_ Hdefaults]].
  split; [exact Hsame|].
  apply (Hdefaults (VStr "P1")); reflexivity.
Defined.

(** When the remote sends the service of an incident as [null], the
    default of [.get] does not apply and formatting raises
    [AttributeError]. In the daemon this happens after the update was
    sent and answered 200: the incident is acknowledged, but no line is
    printed and no notification made for it, and the exception ends the
    pass. *)
Theorem null_service_is_acknowledged_silently k N items id w tr age resp :
  get_incident_age_minutes (VDict items) w tr
    = (inr age, (tr ++ [EvUtcNow])%list) ->
  old_enough age N = true ->
  lookup_item "id" items = Some id ->
  lookup_item "service" items = Some VNone ->
  http w (S (List.length tr)) (ack_request w k id) = inr resp ->
  status_code resp = 200 ->
  let e := Exception "AttributeError" "'NoneType' object has no attribute 'get'" in
  format_incident_oneline w (VDict items) = inl e /\
  process_incident k N (VDict items) w tr =
    (inl e, (tr ++ [EvUtcNow; EvHttp (ack_request w k id); EvLocalNow])%list).
Proof.
  intros Hage Hold Hid Hsvc Hresp Hcode e.
  assert (Hfmt : format_incident_oneline w (VDict items) = inl e).
  { unfold format_incident_oneline, dict_get, get_method, subscript, lookup_default.
    simpl rbind. rewrite Hid, Hsvc. reflexivity. }
  split; [exact Hfmt|].
  rewrite process_incident_run, Hage, Hold.
  unfold subscript. rewrite Hid. unfold ok. rewrite acknowledge_incident_run.
  rewrite length_app. simpl List.length. rewrite Nat.add_1_r, Hresp, Hcode.
  simpl Z.eqb. cbv iota.
  unfold announce, bind at 1, ask. unfold bind at 1, datetime_now.
  unfold bind at 1, lift. rewrite Hfmt. rewrite <- !app_assoc. reflexivity.
Qed.

Lemma null_service_is_acknowledged_silently_witness :
  let e := Exception "AttributeError" "'NoneType' object has no attribute 'get'" in
  format_incident_oneline scenario_world null_service_incident = inl e /\
  process_incident "key" 3 null_service_incident scenario_world [] =
    (inl e, [EvUtcNow; EvHttp (ack_request scenario_world "key" (VStr "P9"));
             EvLocalNow]).
Proof.
  apply (null_service_is_acknowledged_silently "key" 3
           [ ("id", VStr "P9"); ("status", VStr "triggered");
             ("created_at", VStr "2024-01-01T00:00:00Z");
             ("service", VNone); ("summary", VStr "disk full") ]
           (VStr "P9") scenario_world [] (minutes_of_micros 600000000)
           (json_response 200 (VDict [])));
    reflexivity.
Defined.

(** ** The daemon, continued *)

Lemma bind_returns {A B : Type} (m : M A) (f : A -> M B) w tr b tr' :
  bind m f w tr = (inr b, tr') ->
  exists a tr1, m w tr = (inr a, tr1) /\ f a w tr1 = (inr b, tr').
Proof.
  unfold bind. destruct (m w tr) as [[e|a] tr1]; [discriminate|].
  intros H. exists a, tr1. auto.
Qed.

Lemma time_sleep_returns secs w tr tr' :
  time_sleep secs w tr = (inr tt, tr') ->
  0 <= secs /\ tr' = (tr ++ [EvSleep secs])%list.
Proof.
  unfold time_sleep. destruct (secs <? 0) eqn:Hneg; [discriminate|].
  intros H. inversion H; subst. split; [|reflexivity].
  apply Z.ltb_ge. exact Hneg.
Qed.

Lemma cycle_returns k u N w tr tr' :
  cycle k u N w tr = (inr tt, tr') ->
  0 <= N /\ exists tr0, tr' = (tr0 ++ [EvSleep (N * 60)])%list.
Proof.
  unfold cycle. intros H.
  apply bind_returns in H. destruct H as [incidents [tr1 [_ H]]].
  apply bind_returns in H. destruct H as [triggered [tr2 [_ H]]].
  apply bind_returns in H. destruct H as [[] [tr3 [_ H]]].
  apply time_sleep_returns in H. destruct H as [HN ->].
  split; [lia | eauto].
Qed.

Lemma loop_iteration_continues k u N w tr tr' :
  loop_iteration k u N w tr = (inr Continue, tr') ->
  0 <= N /\ exists tr0, tr' = (tr0 ++ [EvSleep (N * 60)])%list.
Proof.
  unfold loop_iteration, try_except.
  destruct (bind (cycle k u N) (fun _ => ret Continue) w tr) as [[e|c] tr1] eqn:Hbody.
  - destruct e as [|cls msg]; intros H.
    + apply bind_returns in H. destruct H as [[] [tr2 [_ H]]]. discriminate.
    + apply bind_returns in H. destruct H as [[] [tr2 [_ H]]].
      apply bind_returns in H. destruct H as [[] [tr3 [H Hret]]].
      apply time_sleep_returns in H. destruct H as [HN ->].
      inversion Hret; subst. split; [lia | eauto].
  - intros H. inversion H; subst.
    apply bind_returns in Hbody. destruct Hbody as [[] [tr2 [Hc Hret]]].
    inversion Hret; subst. eapply cycle_returns. exact Hc.
Qed.

(** A turn of the loop that lets the loop go on has slept the interval as
    its last action, after a cycle that succeeded as well as after one
    that failed; and the interval was not negative. *)
Theorem turn_continues_only_after_sleep k u N w tr tr' :
  loop_iteration k u N w tr = (inr Continue, tr') ->
  0 <= N /\ exists tr0, tr' = (tr0 ++ [EvSleep (N * 60)])%list.
Proof. apply loop_iteration_continues. Qed.

Lemma turn_continues_only_after_sleep_witness :
  0 <= 3 /\
  exists tr0,
    snd (loop_iteration "key" (VStr "PUSER") 3 scenario_world []) =
    (tr0 ++ [EvSleep (3 * 60)])%list.
Proof.
  apply (turn_continues_only_after_sleep "key" (VStr "PUSER") 3 scenario_world []).
  vm_compute. reflexivity.
Defined.

(** With a negative interval the daemon does not outlive its first turn:
    [time.sleep] refuses the length in the cycle and again in the handler,
    so the run ends with an exception (or with the interrupt), never
    still looping. *)
Theorem negative_interval_ends_daemon k u N turns w tr :
  N < 0 ->
  fst (while_true (S turns) (loop_iteration k u N) w tr) <> inr Running.
Proof.
  intros HN. simpl while_true. unfold bind.
  destruct (loop_iteration k u N w tr) as [[e|[|]] tr1] eqn:Hturn.
  - discriminate.
  - apply loop_iteration_continues in Hturn. lia.
  - discriminate.
Qed.

Lemma negative_interval_ends_daemon_witness :
  fst (while_true 3 (loop_iteration "key" (VStr "PUSER") (-1)) scenario_world [])
    <> inr Running.
Proof.
  apply (negative_interval_ends_daemon "key" (VStr "PUSER") (-1) 2 scenario_world []).
  lia.
Defined.

(** An interrupt during a cycle ends the daemon for good: the turn prints
    the shutdown message and leaves the loop, and however many turns were
    still to come, nothing else happens. *)
Theorem interrupt_stops_daemon k u N w tr tr1 turns :
  cycle k u N w tr = (inl KeyboardInterrupt, tr1) ->
  stdout_write w (List.length tr1) (NL ++ "Stopping background ack daemon." ++ NL)
    = inr tt ->
  while_true (S turns) (loop_iteration k u N) w tr =
    (inr Stopped,
     (tr1 ++ [EvWrite (NL ++ "Stopping background ack daemon." ++ NL)])%list).
Proof.
  intros Hcycle Hprint. simpl while_true.
  assert (Hturn : loop_iteration k u N w tr =
            (inr Break,
             (tr1 ++ [EvWrite (NL ++ "Stopping background ack daemon." ++ NL)])%list)).
  { unfold loop_iteration, try_except. rewrite (bind_inl _ _ _ _ _ _ Hcycle).
    unfold bind. rewrite print_run.
    change ((NL ++ "Stopping background ack daemon.") ++ NL)
      with (NL ++ "Stopping background ack daemon." ++ NL).
    rewrite Hprint. reflexivity. }
  rewrite (bind_inr _ _ _ _ _ _ Hturn). reflexivity.
Qed.

Lemma interrupt_stops_daemon_witness :
  while_true 5 (loop_iteration "key" (VStr "PUSER") 3) interrupted_world [] =
    (inr Stopped,
     (snd (cycle "key" (VStr "PUSER") 3 interrupted_world [])
        ++ [EvWrite (NL ++ "Stopping background ack daemon." ++ NL)])%list).
Proof.
  apply (interrupt_stops_daemon "key" (VStr "PUSER") 3 interrupted_world []
           (snd (cycle "key" (VStr "PUSER") 3 interrupted_world [])) 4).
  - vm_compute. reflexivity.
  - reflexivity.
Defined.

(** An interrupt that arrives while the daemon sleeps after a failed
    cycle is not caught: the handler of the error is outside the [try],
    so the interrupt leaves the loop as an exception, without the shutdown
    message. *)
Theorem interrupt_after_error_escapes k u N w tr cls msg tr1 turns :
  cycle k u N w tr = (inl (Exception cls msg), tr1) ->
  0 <= N ->
  stdout_write w (List.length tr1) ("Error: " ++ msg ++ NL) = inr tt ->
  sleep w (S (List.length tr1)) (N * 60) = inl KeyboardInterrupt ->
  while_true (S turns) (loop_iteration k u N) w tr =
    (inl KeyboardInterrupt,
     (tr1 ++ [EvWrite ("Error: " ++ msg ++ NL); EvSleep (N * 60)])%list).
Proof.
  intros Hcycle HN Hprint Hsleep. simpl while_true. apply bind_inl.
  unfold loop_iteration, try_except. rewrite (bind_inl _ _ _ _ _ _ Hcycle).
  unfold bind. rewrite print_run.
  change (("Error: " ++ msg) ++ NL) with ("Error: " ++ msg ++ NL).
  rewrite Hprint. unfold time_sleep.
  replace (N * 60 <? 0) with false by (symmetry; apply Z.ltb_ge; lia).
  rewrite length_app. simpl List.length. rewrite Nat.add_1_r, Hsleep.
  rewrite <- app_assoc. reflexivity.
Qed.

Lemma interrupt_after_error_escapes_witness :
  while_true 5 (loop_iteration "key" (VStr "PUSER") 3) flaky_interrupted_world [] =
    (inl KeyboardInterrupt,
     [EvHttp (incidents_request "key" (VStr "PUSER") "triggered");
      EvWrite ("Error: connection refused" ++ NL); EvSleep (3 * 60)]).
Proof.
  apply (interrupt_after_error_escapes "key" (VStr "PUSER") 3
           flaky_interrupted_world [] "ConnectionError" "connection refused"
           [EvHttp (incidents_request "key" (VStr "PUSER") "triggered")] 4).
  - reflexivity.
  - lia.
  - reflexivity.
  - reflexivity.
Defined.

(** *** The identity of the user *)

Lemma get_current_user_id_trace k w tr :
  snd (get_current_user_id k w tr) = (tr ++ [EvHttp (user_request k)])%list.
Proof.
  unfold get_current_user_id, bind, requests_send, lift.
  destruct (http w (List.length tr) (user_request k)) as [e|resp]; [reflexivity|].
  destruct (raise_for_status resp) as [e|[]]; [reflexivity|].
  destruct (json resp) as [e|body]; [reflexivity|].
  destruct (subscript body "user"); reflexivity.
Qed.

(** Without the identity of the user there is no daemon: if
    [get_current_user_id] raises, [background_ack] raises the same after
    its two banner lines and that one request, whatever the number of
    turns; no incident is ever asked for. *)
Theorem background_ack_needs_identity turns k N w tr e tr3 :
  let banner1 := "Background ack daemon started. Auto-ack threshold: "
                 ++ py_str w (VInt N) ++ " min" ++ NL in
  let banner2 := "Checking every " ++ py_str w (VInt N)
                 ++ " minutes. Press Ctrl+C to stop." ++ NL ++ NL in
  stdout_write w (List.length tr) banner1 = inr tt ->
  stdout_write w (S (List.length tr)) banner2 = inr tt ->
  get_current_user_id k w (tr ++ [EvWrite banner1; EvWrite banner2])%list
    = (inl e, tr3) ->
  background_ack turns k N w tr =
    (inl e, (tr ++ [EvWrite banner1; EvWrite banner2; EvHttp (user_request k)])%list).
Proof.
  intros banner1 banner2 H1 H2 Hu.
  pose proof (get_current_user_id_trace k w (tr ++ [EvWrite banner1; EvWrite banner2])%list)
    as Htr.
  rewrite Hu in Htr. simpl in Htr. subst tr3.
  unfold background_ack, bind at 1, ask. unfold bind at 1. rewrite print_run.
  replace ((("Background ack daemon started. Auto-ack threshold: "
             ++ py_str w (VInt N) ++ " min") ++ NL)) with banner1
    by (unfold banner1; simpl; rewrite !string_app_assoc; reflexivity).
  rewrite H1. unfold bind at 1. rewrite print_run.
  replace ((("Checking every " ++ py_str w (VInt N)
             ++ " minutes. Press Ctrl+C to stop." ++ NL) ++ NL)) with banner2
    by (unfold banner2; simpl; rewrite !string_app_assoc; reflexivity).
  rewrite length_app. simpl List.length. rewrite Nat.add_1_r, H2.
  rewrite <- app_assoc. simpl app.
  rewrite (bind_inl _ _ _ _ _ _ Hu). rewrite <- app_assoc. reflexivity.
Qed.

Lemma background_ack_needs_identity_witness :
  background_ack 7 "key" 3 unauthorized_world [] =
    (inl (Exception "HTTPError" "401 Client Error: Unauthorized for url: https://api.pagerduty.com/users/me"),
     [EvWrite ("Background ack daemon started. Auto-ack threshold: 3 min" ++ NL);
      EvWrite ("Checking every 3 minutes. Press Ctrl+C to stop." ++ NL ++ NL);
      EvHttp (user_request "key")]).
Proof.
  apply (background_ack_needs_identity 7 "key" 3 unauthorized_world []
           (Exception "HTTPError" "401 Client Error: Unauthorized for url: https://api.pagerduty.com/users/me")
           [EvWrite ("Background ack daemon started. Auto-ack threshold: 3 min" ++ NL);
            EvWrite ("Checking every 3 minutes. Press Ctrl+C to stop." ++ NL ++ NL);
            EvHttp (user_request "key")]);
    reflexivity.
Defined.

Lemma user_lookups_app tr evs :
  user_lookups (tr ++ evs)%list = (user_lookups tr + user_lookups evs)%nat.
Proof. unfold user_lookups. rewrite filter_app. apply length_app. Qed.

Lemma no_user_request_lookups evs :
  Forall no_user_request evs -> user_lookups evs = 0%nat.
Proof.
  unfold user_lookups. induction 1 as [|ev evs Hev _ IH]; [reflexivity|].
  simpl. rewrite Hev. exact IH.
Qed.

Lemma process_incident_no_user_request k N inc :
  emits no_user_request (process_incident k N inc).
Proof.
  intros w tr. destruct (process_incident k N inc w tr) as [r tr'] eqn:H.
  simpl. destruct (process_incident_events _ _ _ _ _ _ _ H)
    as [[-> _] | [[-> _] | [age [id [outs [_ [_ [_ [-> Houts]]]]]]]]].
  - exists []. split; [symmetry; apply app_nil_r | constructor].
  - exists [EvUtcNow]. split; [reflexivity|].
    constructor; [reflexivity | constructor].
  - eexists. split; [reflexivity|].
    constructor; [reflexivity|]. constructor; [reflexivity|].
    eapply Forall_impl; [|exact Houts].
    intros ev; destruct ev; simpl; try contradiction; reflexivity.
Qed.

Lemma loop_iteration_no_user_request k u N :
  emits no_user_request (loop_iteration k u N).
Proof.
  assert (Hsleep : forall secs, emits no_user_request (time_sleep secs)).
  { intros secs. unfold time_sleep. destruct (secs <? 0); [apply emits_raise|].
    intros w tr. eexists [_]. split; [reflexivity|].
    constructor; [reflexivity | constructor]. }
  assert (Hprint : forall s, emits no_user_request (print s)).
  { intros s. apply print_emits_any. reflexivity. }
  unfold loop_iteration. apply emits_try_except.
  - apply emits_bind; [|intro; apply emits_ret].
    unfold cycle.
    apply emits_bind; [apply get_incidents_emits; intro; reflexivity | intro].
    apply emits_bind; [apply emits_lift | intro].
    apply emits_bind; [|intro; apply Hsleep].
    apply emits_for_each. intro. apply process_incident_no_user_request.
  - intros [|cls msg].
    + apply emits_bind; [apply Hprint | intro; apply emits_ret].
    + apply emits_bind; [apply Hprint | intro].
      apply emits_bind; [apply Hsleep | intro; apply emits_ret].
Qed.

Lemma while_true_emits P turns (iteration : M loop_ctl) :
  emits P iteration -> emits P (while_true turns iteration).
Proof.
  intros Hturn. induction turns as [|turns IH]; simpl.
  - apply emits_ret.
  - apply emits_bind; [exact Hturn | intros [|]]; [exact IH | apply emits_ret].
Qed.

(** The daemon asks who the user is once, at its start: however many
    turns it runs and whatever happens in them, a run adds at most one
    request for the identity to the trace. *)
Theorem user_identity_is_asked_once turns k N w tr :
  (user_lookups (snd (background_ack turns k N w tr)) <= user_lookups tr + 1)%nat.
Proof.
  assert (Hprint : forall s, emits no_user_request (print s)).
  { intros s. apply print_emits_any. reflexivity. }
  unfold background_ack, bind at 1, ask. unfold bind at 1.
  destruct (Hprint ("Background ack daemon started. Auto-ack threshold: "
                    ++ py_str w (VInt N) ++ " min") w tr) as [evs1 [E1 H1]].
  destruct (print _ w tr) as [[e|[]] tr1]; simpl in E1; subst tr1.
  { cbn [snd]. rewrite user_lookups_app, (no_user_request_lookups _ H1). lia. }
  unfold bind at 1.
  destruct (Hprint ("Checking every " ++ py_str w (VInt N)
                    ++ " minutes. Press Ctrl+C to stop." ++ NL) w (tr ++ evs1)%list)
    as [evs2 [E2 H2]].
  destruct (print _ w (tr ++ evs1)%list) as [[e|[]] tr2]; simpl in E2; subst tr2.
  { cbn [snd]. rewrite !user_lookups_app, (no_user_request_lookups _ H1),
      (no_user_request_lookups _ H2). lia. }
  unfold bind at 1.
  pose proof (get_current_user_id_trace k w ((tr ++ evs1) ++ evs2)%list) as Hu.
  destruct (get_current_user_id k w ((tr ++ evs1) ++ evs2)%list) as [[e|u] tr3];
    simpl in Hu; subst tr3.
  { cbn [snd]. rewrite !user_lookups_app, (no_user_request_lookups _ H1),
      (no_user_request_lookups _ H2).
    change (user_lookups [EvHttp (user_request k)]) with 1%nat. lia. }
  destruct (while_true_emits no_user_request turns _
              (loop_iteration_no_user_request k u N) w
              (((tr ++ evs1) ++ evs2) ++ [EvHttp (user_request k)])%list)
    as [evs3 [E3 H3]].
  rewrite E3. rewrite !user_lookups_app, (no_user_request_lookups _ H1),
    (no_user_request_lookups _ H2), (no_user_request_lookups _ H3).
  change (user_lookups [EvHttp (user_request k)]) with 1%nat. lia.
Qed.

(** ** The command line *)

Lemma test_alert_emits : emits is_output test_alert.
Proof.
  unfold test_alert.
  apply emits_bind; [apply print_emits | intro].
  apply emits_bind; [apply send_notification_emits | intro].
  apply print_emits.
Qed.

(** With [--test-alert] the program only sends the test notification:
    whatever the other flags and whether or not there is a configuration,
    it touches nothing but standard output and the helper process; no
    request is sent. *)
Theorem main_test_alert_is_offline turns args file w tr :
  arg_test_alert args = true ->
  exists evs,
    snd (main turns args file w tr) = (tr ++ evs)%list /\ Forall is_output evs.
Proof.
  intros Hflag. unfold main. rewrite Hflag.
  assert (H : emits is_output (test_alert ;; ret Returned)).
  { apply emits_bind; [apply test_alert_emits | intro; apply emits_ret]. }
  apply H.
Qed.

Lemma main_test_alert_is_offline_witness :
  exists evs,
    snd (main 1 every_flag no_config scenario_world []) = ([] ++ evs)%list /\
    Forall is_output evs.
Proof.
  apply (main_test_alert_is_offline 1 every_flag no_config scenario_world []).
  reflexivity.
Defined.

(** Without an API key nothing is attempted: when the configuration file
    does not exist, or it loads to a mapping in which the key is missing
    or empty, [main] prints one line of error and leaves with exit status
    1; no request is sent, whichever command was asked for. *)
Theorem main_needs_api_key turns args file w tr :
  arg_test_alert args = false ->
  config_exists file = false \/
  (config_exists file = true /\
   exists config key,
     config_loaded file = inr config /\
     dict_get config "pagerduty_api_key" VNone = inr key /\
     truthy key = false) ->
  exists line,
    snd (main turns args file w tr) = (tr ++ [EvWrite line])%list /\
    (stdout_write w (List.length tr) line = inr tt ->
     fst (main turns args file w tr) = inr (Exited 1)).
Proof.
  intros Hflag Hconfig.
  assert (Hmain : exists line,
            main turns args file w tr =
              (match stdout_write w (List.length tr) line with
               | inl e => inl e
               | inr _ => inr (Exited 1)
               end,
               (tr ++ [EvWrite line])%list)).
  { unfold main. rewrite Hflag.
    destruct Hconfig as [Hnone | [Hsome [config [key [Hload [Hkey Hempty]]]]]].
    - exists (("Error: Config file not found at " ++ config_path file) ++ NL).
      assert (Hlc : load_config file w tr =
                (match stdout_write w (List.length tr)
                         (("Error: Config file not found at " ++ config_path file) ++ NL)
                 with inl e => inl e | inr _ => inr (inl 1) end,
                 (tr ++ [EvWrite (("Error: Config file not found at "
                                   ++ config_path file) ++ NL)])%list)).
      { unfold load_config. rewrite Hnone. cbn [negb].
        unfold bind. rewrite print_run.
        destruct (stdout_write w (List.length tr) _) as [e|[]]; reflexivity. }
      destruct (stdout_write w (List.length tr) _) as [e|[]] eqn:Hprint.
      + rewrite (bind_inl _ _ _ _ _ _ Hlc). reflexivity.
      + rewrite (bind_inr _ _ _ _ _ _ Hlc). reflexivity.
    - exists ("Error: pagerduty_api_key not found in config" ++ NL).
      assert (Hlc : load_config file w tr = (inr (inr config), tr)).
      { unfold load_config. rewrite Hsome. cbn [negb].
        unfold bind, lift. rewrite Hload. reflexivity. }
      rewrite (bind_inr _ _ _ _ _ _ Hlc).
      unfold bind at 1, lift. rewrite Hkey, Hempty. cbn [negb].
      unfold bind. rewrite print_run.
      destruct (stdout_write w (List.length tr) _) as [e|[]]; reflexivity. }
  destruct Hmain as [line Hmain]. exists line. rewrite Hmain.
  split; [reflexivity|]. intros Hok. simpl. rewrite Hok. reflexivity.
Qed.

Lemma main_needs_api_key_witness :
  exists line,
    snd (main 1 ack_all_flag config_without_key scenario_world [])
      = ([] ++ [EvWrite line])%list /\
    (stdout_write scenario_world (List.length (@nil event)) line = inr tt ->
     fst (main 1 ack_all_flag config_without_key scenario_world []) = inr (Exited 1)).
Proof.
  apply (main_needs_api_key 1 ack_all_flag config_without_key scenario_world []).
  - reflexivity.
  - right. split; [reflexivity|].
    exists (VDict [("pagerduty_domain", VStr "acme")]), VNone.
    repeat split; reflexivity.
Defined.

(** ** A malformed record *)

Lemma with_status_fails status incidents i e0 :
  In i incidents ->
  subscript i "status" = inl e0 ->
  exists e, with_status status incidents = inl e.
Proof.
  induction incidents as [|x rest IH]; intros Hin Hbad; [contradiction|].
  simpl. unfold rbind.
  destruct (subscript x "status") as [e|s] eqn:Hx; [eauto|].
  destruct Hin as [-> | Hin]; [congruence|].
  destruct (IH Hin Hbad) as [e He]. rewrite He. eauto.
Qed.

(** One record without a status in the fetch, wherever it stands and
    whatever the others are, makes the cycle raise right after the fetch:
    no age is computed, no update sent and the cycle's own sleep is
    skipped. *)
Theorem record_without_status_fails_the_cycle k u N w tr incidents tr0 i e0 :
  get_incidents k u w tr = (inr incidents, tr0) ->
  In i incidents ->
  subscript i "status" = inl e0 ->
  exists e, cycle k u N w tr = (inl e, tr0).
Proof.
  intros Hget Hin Hbad.
  destruct (with_status_fails "triggered" _ _ _ Hin Hbad) as [e He].
  exists e. unfold cycle. rewrite (bind_inr _ _ _ _ _ _ Hget).
  unfold bind, lift. rewrite He. reflexivity.
Qed.

Lemma record_without_status_fails_the_cycle_witness :
  exists e, cycle "key" (VStr "PUSER") 3 statusless_world [] = (inl e, fetched).
Proof.
  apply (record_without_status_fails_the_cycle "key" (VStr "PUSER") 3
           statusless_world []
           [old_incident; VDict [("id", VStr "P3")]] fetched
           (VDict [("id", VStr "P3")]) (Exception "KeyError" "'status'")).
  - reflexivity.
  - right. left. reflexivity.
  - reflexivity.
Defined.
